(** * Mock CRM data generator: a shallow embedding of
      [src/extract/generate_mock_data.py] and its generated-data invariants.

    Modelling conventions.
    - Python [float] values are idealised as exact rationals ([Q]); [int] is [Z].
      The conversion of an [int] to a [float] keeps its one failure where the
      campaign-member counts multiply an integer of the input by a float: an
      integer too large for a double raises [OverflowError].
    - The module-level [random] generator and the [Faker] instance form one
      ambient state.  It is threaded explicitly through every call, in program
      order, by the monad [M]; the library primitives are the fields of the
      class [RandomSource], constrained only by their documented ranges.
    - Exceptions are values: a computation returns [Ok] or [Raise].
    - A [datetime] is its proleptic Gregorian day number.  Every datetime the
      generators build sits at a whole number of days from a configured date,
      and the clock reading is only ever rendered with day precision; string
      fields holding ISO renderings of dates are kept as the [datetime] they
      denote.
    - [None]-able fields are [option]s. *)

From Stdlib Require Import ZArith QArith Qround Qabs Lia Lqa String Ascii.
From stdpp Require Import base option list strings gmap.

Local Open Scope string_scope.
Local Open Scope Z_scope.
Local Open Scope list_scope.

(** ** Exceptions and the generator monad *)

Inductive PyError : Type :=
  ValueError | IndexError | ZeroDivisionError | OverflowError.

Inductive Res (A : Type) : Type :=
| Ok (a : A)
| Raise (e : PyError).
Arguments Ok {A} a.
Arguments Raise {A} e.

Definition M (G A : Type) : Type := G -> Res (A * G).

Definition ret {G A} (a : A) : M G A := fun g => Ok (a, g).

Definition bind {G A B} (c : M G A) (k : A -> M G B) : M G B :=
  fun g => match c g with
           | Ok (a, g') => k a g'
           | Raise e => Raise e
           end.

Definition raise {G A} (e : PyError) : M G A := fun _ => Raise e.

Definition lift {G A} (f : G -> A * G) : M G A := fun g => Ok (f g).

Definition lift_res {G A} (r : Res A) : M G A :=
  fun g => match r with Ok a => Ok (a, g) | Raise e => Raise e end.

(** stdpp's monad notations: [x ← c; k] is [bind c (fun x => k)]. *)
#[export] Instance M_ret {G} : MRet (M G) := @ret G.
#[export] Instance M_bind {G} : MBind (M G) := fun A B k c => bind c k.

(** [for x in l: out.append(body(x))] *)
Fixpoint mapM {G A B} (f : A -> M G B) (l : list A) : M G (list B) :=
  match l with
  | [] => ret []
  | x :: l' => y ← f x; ys ← mapM f l'; ret (y :: ys)
  end.

(** [for i in range(n)]; a negative [n] gives the empty range. *)
Definition for_range {G B} (n : Z) (body : nat -> M G B) : M G (list B) :=
  mapM body (seq 0 (Z.to_nat n)).

(** Partial correctness: every normal outcome of [c] satisfies [P]. *)
Definition post {G A} (c : M G A) (P : A -> Prop) : Prop :=
  forall g a g', c g = Ok (a, g') -> P a.

(** Total success: [c] never raises. *)
Definition succeeds {G A} (c : M G A) : Prop :=
  forall g, exists a g', c g = Ok (a, g').

(** ** Rational helpers for float code *)

Definition Qltb (x y : Q) : bool := negb (Qle_bool y x).

(** [int(x)]: truncation toward zero. *)
Definition py_int (x : Q) : Z := Z.quot (Qnum x) (Z.pos (Qden x)).

(** Python [max(a, b)] / [min(a, b)]: the first argument wins ties. *)
Definition py_max (a b : Q) : Q := if Qltb a b then b else a.
Definition py_min (a b : Q) : Q := if Qltb b a then b else a.

(** Round half to even, to the nearest integer. *)
Definition round_half_even (x : Q) : Z :=
  let f := Qfloor x in
  let d := (x - inject_Z f)%Q in
  if Qltb d 0.5 then f
  else if Qltb 0.5 d then f + 1
  else if Z.even f then f else f + 1.

(** [round(x, 2)] *)
Definition round2 (x : Q) : Q := (inject_Z (round_half_even (x * 100)) / 100)%Q.

(** [a / b] on floats *)
Definition py_div (a b : Q) : Res Q :=
  if Qeq_bool b 0 then Raise ZeroDivisionError else Ok (a / b)%Q.

(** The least magnitude of an [int] that no [float] can hold: the integers
    below [2^1024 - 2^970] round to a finite double, the others raise
    [OverflowError] when converted. *)
Definition FLOAT_INT_LIMIT : Z := 2 ^ 1024 - 2 ^ 970.

(** The implicit conversion of the [int] operand in [n * x]. *)
Definition float_of_int (n : Z) : Res Q :=
  if Z.abs n <? FLOAT_INT_LIMIT then Ok (inject_Z n) else Raise OverflowError.

(** [int(n * x)] for an [int] [n] and a [float] [x]. *)
Definition int_of_scaled (n : Z) (x : Q) : Res Z :=
  match float_of_int n with
  | Ok f => Ok (py_int (f * x))
  | Raise e => Raise e
  end.

(** ** The random source ([random] module and [Faker]) *)

Inductive FakerProvider : Type :=
| fake_name | fake_company_email | fake_user_name | fake_first_name
| fake_last_name | fake_phone_number | fake_company | fake_street_address
| fake_city | fake_state_abbr | fake_postcode | fake_sentence
| fake_catch_phrase.

Class RandomSource (G : Type) : Type := {
  (** [random.random()] *)
  rs_random : G -> Q * G;
  (** [random._randbelow(n)] *)
  rs_below : Z -> G -> Z * G;
  (** [random.lognormvariate(mu, sigma)] *)
  rs_lognormvariate : Q -> Q -> G -> Q * G;
  (** the positions picked by [random.sample(population, k)],
      for a population of [n] items *)
  rs_sample : nat -> nat -> G -> list nat * G;
  (** a [Faker] provider call *)
  rs_fake : FakerProvider -> G -> string * G;
  rs_random_range : forall g, (0 <= fst (rs_random g) < 1)%Q;
  rs_below_range : forall n g, 0 < n -> 0 <= fst (rs_below n g) < n;
  rs_sample_spec : forall n k g, (k <= n)%nat ->
      length (fst (rs_sample n k g)) = k /\
      NoDup (fst (rs_sample n k g)) /\
      Forall (fun i => (i < n)%nat) (fst (rs_sample n k g))
}.

(** A scripted source: a tape of raw draws, read one per call (and 0 once
    the tape is used up).  It is used to run the generators on concrete
    inputs. *)
Definition Tape : Type := list Z.

Definition tape_next (t : Tape) : Z * Tape :=
  match t with
  | [] => (0, [])
  | x :: t' => (x, t')
  end.

Definition tape_random (t : Tape) : Q * Tape :=
  (Qmake (fst (tape_next t) mod 1000) 1000, snd (tape_next t)).

Definition tape_below (n : Z) (t : Tape) : Z * Tape :=
  (fst (tape_next t) mod n, snd (tape_next t)).

Definition tape_lognormvariate (mu sigma : Q) (t : Tape) : Q * Tape :=
  (inject_Z (fst (tape_next t)), snd (tape_next t)).

(** [k] consecutive positions starting at the drawn offset when they fit,
    and the first [k] positions otherwise. *)
Definition tape_sample (n k : nat) (t : Tape) : list nat * Tape :=
  let s := Z.to_nat (fst (tape_next t)) in
  (if (s + k <=? n)%nat then seq s k else seq 0 k, snd (tape_next t)).

Definition tape_fake (p : FakerProvider) (t : Tape) : string * Tape :=
  ("lorem", t).

Lemma tape_random_range t : (0 <= fst (tape_random t) < 1)%Q.
Proof.
  unfold tape_random, Qle, Qlt; simpl.
  pose proof (Z.mod_pos_bound (fst (tape_next t)) 1000). lia.
Qed.

Lemma tape_below_range n t : 0 < n -> 0 <= fst (tape_below n t) < n.
Proof. intros Hn. simpl. now apply Z.mod_pos_bound. Qed.

Lemma tape_sample_spec n k t : (k <= n)%nat ->
  length (fst (tape_sample n k t)) = k /\
  NoDup (fst (tape_sample n k t)) /\
  Forall (fun i => (i < n)%nat) (fst (tape_sample n k t)).
Proof.
  intros Hk. unfold tape_sample; simpl.
  destruct (Nat.leb_spec (Z.to_nat (fst (tape_next t)) + k) n) as [Hfit|Hfit].
  - split; [apply length_seq|]. split; [apply NoDup_seq|].
    apply Forall_forall. intros i Hi. apply elem_of_seq in Hi. lia.
  - split; [apply length_seq|]. split; [apply NoDup_seq|].
    apply Forall_forall. intros i Hi. apply elem_of_seq in Hi. lia.
Qed.

#[export] Instance Tape_source : RandomSource Tape := {|
  rs_random := tape_random;
  rs_below := tape_below;
  rs_lognormvariate := tape_lognormvariate;
  rs_sample := tape_sample;
  rs_fake := tape_fake;
  rs_random_range := tape_random_range;
  rs_below_range := tape_below_range;
  rs_sample_spec := tape_sample_spec
|}.

Section Random.
Context {G : Type} `{RandomSource G}.

Definition random : M G Q := lift rs_random.

Definition randbelow (n : Z) : M G Z := lift (rs_below n).

Definition lognormvariate (mu sigma : Q) : M G Q :=
  lift (rs_lognormvariate mu sigma).

Definition fake (p : FakerProvider) : M G string := lift (rs_fake p).

(** [random.randint(a, b)] = [a + _randbelow(b - a + 1)];
    [ValueError] on an empty range. *)
Definition randint (a b : Z) : M G Z :=
  if b <? a then raise ValueError
  else k ← randbelow (b - a + 1); ret (a + k).

(** [random.uniform(a, b)] = [a + (b - a) * random()] *)
Definition uniform (a b : Q) : M G Q :=
  r ← random; ret (a + (b - a) * r)%Q.

(** [seq[i]] *)
Definition index {A} (seq : list A) (i : nat) : M G A :=
  match seq !! i with
  | Some x => ret x
  | None => raise IndexError
  end.

(** [random.choice(seq)] = [seq[_randbelow(len(seq))]];
    [IndexError] on an empty sequence. *)
Definition choice {A} (seq : list A) : M G A :=
  match seq with
  | [] => raise IndexError
  | _ => i ← randbelow (Z.of_nat (length seq)); index seq (Z.to_nat i)
  end.

(** [random.choices(population, k=k)] without weights:
    [population[floor(random() * n)]], [k] times. *)
Definition choices_uniform {A} (population : list A) (k : nat) : M G (list A) :=
  mapM (fun _ : nat =>
          r ← random;
          index population
            (Z.to_nat (Qfloor (r * inject_Z (Z.of_nat (length population))))))
       (seq 0 k).

(** [itertools.accumulate(weights)] *)
Fixpoint accumulate_from (acc : Q) (weights : list Q) : list Q :=
  match weights with
  | [] => []
  | w :: ws => (acc + w)%Q :: accumulate_from (acc + w)%Q ws
  end.

(** [bisect.bisect_right(a, x, 0, hi)] on a non-decreasing [a]. *)
Fixpoint bisect_right (a : list Q) (x : Q) (hi : nat) : nat :=
  match hi, a with
  | S hi', y :: a' => if Qle_bool y x then S (bisect_right a' x hi') else O
  | _, _ => O
  end.

(** [random.choices(population, weights=weights)[0]] *)
Definition choices_weighted {A} (population : list A) (weights : list Q) : M G A :=
  let cum_weights := accumulate_from 0 weights in
  if negb (length cum_weights =? length population)%nat then raise ValueError
  else match last cum_weights with
       | None => raise IndexError
       | Some total =>
           if Qle_bool total 0 then raise ValueError
           else r ← random;
                index population
                  (bisect_right cum_weights (r * total)%Q
                                (length population - 1))
       end.

(** [random.sample(population, k)]; [ValueError] unless [0 <= k <= n]. *)
Definition sample {A} (population : list A) (k : Z) : M G (list A) :=
  let n := length population in
  if (k <? 0) || (Z.of_nat n <? k) then raise ValueError
  else idxs ← lift (rs_sample n (Z.to_nat k)); mapM (index population) idxs.

(** [generate_sf_id]: the prefix followed by 15 random alphanumerics. *)
Definition sf_alphabet : list ascii :=
  list_ascii_of_string
    "0123456789ABCDEFGHIJKLMNOPQRSTUVWXYZabcdefghijklmnopqrstuvwxyz".

Definition generate_sf_id (prefix : string) : M G string :=
  cs ← choices_uniform sf_alphabet 15;
  ret (prefix +:+ string_of_list_ascii cs).

End Random.

(** ** Dates *)

Definition datetime : Type := Z.

Module Calendar.

(** Day number of a civil date, counted as [date.toordinal()] does
    (0001-01-01 is day 1). *)
Definition ordinal (y m d : Z) : Z :=
  let y' := if m <=? 2 then y - 1 else y in
  let era := y' / 400 in
  let yoe := y' - era * 400 in
  let mp := if 2 <? m then m - 3 else m + 9 in
  let doy := (153 * mp + 2) / 5 + d - 1 in
  let doe := yoe * 365 + yoe / 4 - yoe / 100 + doy in
  era * 146097 + doe - 305.

(** Civil date [(year, month, day)] of a day number. *)
Definition civil (n : Z) : Z * Z * Z :=
  let z := n + 305 in
  let era := z / 146097 in
  let doe := z - era * 146097 in
  let yoe := (doe - doe / 1460 + doe / 36524 - doe / 146096) / 365 in
  let doy := doe - (365 * yoe + yoe / 4 - yoe / 100) in
  let mp := (5 * doy + 2) / 153 in
  let d := doy - (153 * mp + 2) / 5 + 1 in
  let m := if mp <? 10 then mp + 3 else mp - 9 in
  let y := yoe + era * 400 in
  (if m <=? 2 then y + 1 else y, m, d).

Definition year (dt : datetime) : Z := fst (fst (civil dt)).
Definition month (dt : datetime) : Z := snd (fst (civil dt)).
Definition day (dt : datetime) : Z := snd (civil dt).

Definition is_leap (y : Z) : bool :=
  (y mod 4 =? 0) && (negb (y mod 100 =? 0) || (y mod 400 =? 0)).

Definition days_in_month (y m : Z) : Z :=
  if m =? 2 then (if is_leap y then 29 else 28)
  else if (m =? 4) || (m =? 6) || (m =? 9) || (m =? 11) then 30
  else 31.

(** [dt.replace(month=m, day=d)]; [ValueError] for a date that
    does not exist. *)
Definition replace_month_day (dt : datetime) (m d : Z) : Res datetime :=
  if (1 <=? m) && (m <=? 12) && (1 <=? d) && (d <=? days_in_month (year dt) m)
  then Ok (ordinal (year dt) m d)
  else Raise ValueError.

End Calendar.

(** ** Configuration (the module-level constants) *)

Record Config : Type := {
  NUM_USERS : Z;
  NUM_ACCOUNTS : Z;
  NUM_CONTACTS : Z;
  NUM_LEADS : Z;
  NUM_CAMPAIGNS : Z;
  NUM_PRODUCTS : Z;
  NUM_OPPORTUNITIES : Z;
  NUM_ACTIVITIES : Z;
  START_DATE : datetime;
  END_DATE : datetime
}.

Definition default_config : Config := {|
  NUM_USERS := 25;
  NUM_ACCOUNTS := 200;
  NUM_CONTACTS := 500;
  NUM_LEADS := 300;
  NUM_CAMPAIGNS := 50;
  NUM_PRODUCTS := 10;
  NUM_OPPORTUNITIES := 800;
  NUM_ACTIVITIES := 2000;
  START_DATE := Calendar.ordinal 2023 1 1;
  END_DATE := Calendar.ordinal 2025 1 15
|}.

(** ** Data models *)

Module User.
Record t : Type := {
  Id : string;
  Name : string;
  Email : string;
  Username : string;
  Department : string;
  UserRoleId : string;
  ManagerId : option string;
  IsActive : bool;
  CreatedDate : datetime
}.
End User.

Module Account.
Record t : Type := {
  Id : string;
  Name : string;
  Industry : string;
  Type_ : string;
  NumberOfEmployees : Z;
  AnnualRevenue : Q;
  BillingStreet : string;
  BillingCity : string;
  BillingState : string;
  BillingPostalCode : string;
  BillingCountry : string;
  OwnerId : string;
  CreatedDate : datetime;
  LastModifiedDate : datetime
}.
End Account.

Module Contact.
Record t : Type := {
  Id : string;
  AccountId : string;
  FirstName : string;
  LastName : string;
  Email : string;
  Phone : string;
  Title : string;
  Department : string;
  LeadSource : string;
  OwnerId : string;
  CreatedDate : datetime
}.
End Contact.

Module Product.
Record t : Type := {
  Id : string;
  Name : string;
  ProductCode : string;
  Family : string;
  Description : string;
  IsActive : bool;
  CreatedDate : datetime
}.
End Product.

Module PricebookEntry.
Record t : Type := {
  Id : string;
  Product2Id : string;
  UnitPrice : Q;
  IsActive : bool
}.
End PricebookEntry.

Module Opportunity.
Record t : Type := {
  Id : string;
  AccountId : string;
  Name : string;
  StageName : string;
  Amount : Q;
  Probability : Z;
  CloseDate : datetime;
  Type_ : string;
  LeadSource : string;
  OwnerId : string;
  IsClosed : bool;
  IsWon : bool;
  CreatedDate : datetime;
  LastModifiedDate : datetime
}.
End Opportunity.

Module OpportunityLineItem.
Record t : Type := {
  Id : string;
  OpportunityId : string;
  Product2Id : string;
  Quantity : Z;
  UnitPrice : Q;
  TotalPrice : Q
}.
End OpportunityLineItem.

Module Task.
Record t : Type := {
  Id : string;
  WhoId : option string;
  WhatId : string;
  OwnerId : string;
  Subject : string;
  Status : string;
  Priority : string;
  Type_ : string;
  ActivityDate : datetime;
  Description : string;
  CallDurationInSeconds : Z;
  CreatedDate : datetime
}.
End Task.

Module Campaign.
Record t : Type := {
  Id : string;
  Name : string;
  Type_ : string;
  Status : string;
  StartDate : datetime;
  EndDate : datetime;
  IsActive : bool;
  Description : string;
  BudgetedCost : Q;
  ActualCost : Q;
  ExpectedRevenue : Q;
  NumberSent : Z;
  ParentId : option string;
  OwnerId : string;
  CreatedDate : datetime;
  LastModifiedDate : datetime;
  IsDeleted : bool
}.
End Campaign.

Module CampaignMember.
Record t : Type := {
  Id : string;
  CampaignId : string;
  LeadId : option string;
  ContactId : option string;
  Status : string;
  HasResponded : bool;
  CreatedDate : datetime;
  LastModifiedDate : datetime
}.
End CampaignMember.

Module Lead.
Record t : Type := {
  Id : string;
  LastName : string;
  FirstName : string;
  Company : string;
  Title : string;
  Email : string;
  Phone : string;
  Status : string;
  Rating : string;
  LeadSource : string;
  Industry : string;
  AnnualRevenue : Q;
  NumberOfEmployees : Z;
  Street : string;
  City : string;
  State : string;
  PostalCode : string;
  Country : string;
  Description : string;
  OwnerId : string;
  IsConverted : bool;
  ConvertedAccountId : option string;
  ConvertedContactId : option string;
  ConvertedOpportunityId : option string;
  ConvertedDate : option datetime;
  CreatedDate : datetime;
  LastModifiedDate : datetime;
  IsDeleted : bool
}.
End Lead.

(** ** Reference data *)

Definition INDUSTRIES : list string :=
  ["Technology"; "Healthcare"; "Financial Services"; "Manufacturing";
   "Retail"; "Education"; "Media"; "Professional Services";
   "Energy"; "Transportation"; "Real Estate"; "Hospitality"].

Definition INDUSTRY_WEIGHTS : list Q :=
  [0.20; 0.15; 0.15; 0.10; 0.10; 0.08; 0.05; 0.05; 0.04; 0.03; 0.03; 0.02]%Q.

Definition DEPARTMENTS : list string :=
  ["Sales"; "Sales"; "Sales"; "Sales Development"; "Account Management"].

Definition TITLES : list string :=
  ["CEO"; "CTO"; "CFO"; "VP Engineering"; "VP Sales"; "VP Marketing";
   "Director of IT"; "Director of Operations"; "Product Manager";
   "Engineering Manager"; "Software Engineer"; "Data Analyst";
   "Marketing Manager"; "Sales Manager"; "Account Executive"].

Definition LEAD_SOURCES : list string :=
  ["Web"; "Referral"; "Partner"; "Conference"; "Advertisement";
   "Cold Call"; "Email Campaign"; "Social Media"].

Definition LEAD_SOURCE_WEIGHTS : list Q :=
  [0.25; 0.20; 0.15; 0.12; 0.10; 0.08; 0.05; 0.05]%Q.

Definition STAGES : list (string * Z) :=
  [("Prospecting", 10);
   ("Qualification", 20);
   ("Needs Analysis", 40);
   ("Value Proposition", 60);
   ("Negotiation", 80);
   ("Closed Won", 100);
   ("Closed Lost", 0)].

Definition OPPORTUNITY_TYPES : list string :=
  ["New Business"; "Renewal"; "Upsell"; "Cross-sell"].

Definition OPPORTUNITY_TYPE_WEIGHTS : list Q := [0.45; 0.30; 0.15; 0.10]%Q.

Definition TASK_TYPES : list string :=
  ["Call"; "Email"; "Meeting"; "Demo"; "Follow-up"; "Other"].

Definition TASK_STATUSES : list string :=
  ["Not Started"; "In Progress"; "Completed"; "Deferred"].

Definition TASK_PRIORITIES : list string := ["High"; "Normal"; "Low"].

Definition LEAD_STATUSES : list string :=
  ["Open - Not Contacted"; "Working - Contacted"; "Closed - Converted";
   "Closed - Not Converted"].

Definition LEAD_RATINGS : list string := ["Hot"; "Warm"; "Cold"].

(** [seq[a:b]] *)
Definition slice {A} (a b : nat) (l : list A) : list A := drop a (take b l).

(** ** Data generators *)

Section Generators.
Context {G : Type} `{RandomSource G}.
Variable cfg : Config.

Definition random_date (start end_ : datetime) : M G datetime :=
  let delta_days := end_ - start in
  random_days ← randint 0 delta_days;
  ret (start + random_days).

Definition random_date_weighted_quarter_end (start end_ : datetime)
  : M G datetime :=
  date ← random_date start end_;
  r ← random;
  if Qltb r 0.30 then
    let month := Calendar.month date in
    let quarter_end_month := ((month - 1) / 3 + 1) * 3 in
    if quarter_end_month =? 12 then
      d ← randint 20 31;
      lift_res (Calendar.replace_month_day date 12 d)
    else
      d ← randint 20 28;
      lift_res (Calendar.replace_month_day date quarter_end_month d)
  else ret date.

(** [[u for u in users if u.IsActive]] *)
Definition active (users : list User.t) : list User.t :=
  filter (fun u => User.IsActive u = true) users.

(** *** [generate_users] *)

Definition sales_rep (manager_id : string) (i : nat) : M G User.t :=
  id ← generate_sf_id "005";
  name ← fake fake_name;
  email ← fake fake_company_email;
  user_name ← fake fake_user_name;
  department ← choice DEPARTMENTS;
  role ← generate_sf_id "00E";
  r ← random;
  created ← random_date (START_DATE cfg - 365) (END_DATE cfg);
  ret {| User.Id := id;
         User.Name := name;
         User.Email := email;
         User.Username := user_name +:+ "@company.com";
         User.Department := department;
         User.UserRoleId := role;
         User.ManagerId := Some manager_id;
         User.IsActive := Qltb 0.1 r;
         User.CreatedDate := created |}.

Definition generate_users : M G (list User.t) :=
  manager_id ← generate_sf_id "005";
  name ← fake fake_name;
  email ← fake fake_company_email;
  user_name ← fake fake_user_name;
  role ← generate_sf_id "00E";
  let manager :=
    {| User.Id := manager_id;
       User.Name := name;
       User.Email := email;
       User.Username := user_name +:+ "@company.com";
       User.Department := "Sales";
       User.UserRoleId := role;
       User.ManagerId := None;
       User.IsActive := true;
       User.CreatedDate := START_DATE cfg - 365 |} in
  reps ← for_range (NUM_USERS cfg - 1) (sales_rep manager_id);
  ret (manager :: reps).

(** *** [generate_contacts] *)

Definition CONTACT_DEPARTMENTS : list string :=
  ["Engineering"; "IT"; "Operations"; "Finance"; "Marketing"; "Sales"].

Definition new_contact (account : Account.t) (i : nat) : M G Contact.t :=
  id ← generate_sf_id "003";
  first_name ← fake fake_first_name;
  last_name ← fake fake_last_name;
  email ← fake fake_company_email;
  phone ← fake fake_phone_number;
  title ← choice TITLES;
  department ← choice CONTACT_DEPARTMENTS;
  lead_source ← choices_weighted LEAD_SOURCES LEAD_SOURCE_WEIGHTS;
  ret {| Contact.Id := id;
         Contact.AccountId := Account.Id account;
         Contact.FirstName := first_name;
         Contact.LastName := last_name;
         Contact.Email := email;
         Contact.Phone := phone;
         Contact.Title := title;
         Contact.Department := department;
         Contact.LeadSource := lead_source;
         Contact.OwnerId := Account.OwnerId account;
         Contact.CreatedDate := Account.CreatedDate account |}.

(** [min(5, max(1, account.NumberOfEmployees // 100))] *)
Definition max_contacts (account : Account.t) : Z :=
  Z.min 5 (Z.max 1 (Account.NumberOfEmployees account / 100)).

Definition contacts_of_account (account : Account.t) : M G (list Contact.t) :=
  num_contacts ← randint 1 (max_contacts account);
  for_range num_contacts (new_contact account).

Definition generate_contacts (accounts : list Account.t) (users : list User.t)
  : M G (list Contact.t) :=
  let active_users := active users in
  groups ← mapM contacts_of_account accounts;
  ret (concat groups).

(** *** [generate_products] *)

Definition product_names : list (string * string * string * Z) :=
  [("Enterprise Platform", "Software", "ENT-001", 50000);
   ("Professional Suite", "Software", "PRO-001", 15000);
   ("Starter Package", "Software", "STR-001", 5000);
   ("Implementation Services", "Services", "SVC-IMP", 25000);
   ("Custom Development", "Services", "SVC-DEV", 10000);
   ("Premium Support", "Support", "SUP-PRM", 12000);
   ("Standard Support", "Support", "SUP-STD", 5000);
   ("Admin Training", "Training", "TRN-ADM", 2000);
   ("Developer Training", "Training", "TRN-DEV", 3000);
   ("Data Migration", "Services", "SVC-MIG", 8000)].

Definition new_product (entry : string * string * string * Z)
  : M G (Product.t * PricebookEntry.t) :=
  let '(name, family, code, base_price) := entry in
  product_id ← generate_sf_id "01t";
  let product :=
    {| Product.Id := product_id;
       Product.Name := name;
       Product.ProductCode := code;
       Product.Family := family;
       Product.Description := name +:+ " - " +:+ family +:+ " offering";
       Product.IsActive := true;
       Product.CreatedDate := START_DATE cfg |} in
  pbe_id ← generate_sf_id "01u";
  let pbe :=
    {| PricebookEntry.Id := pbe_id;
       PricebookEntry.Product2Id := product_id;
       PricebookEntry.UnitPrice := inject_Z base_price;
       PricebookEntry.IsActive := true |} in
  ret (product, pbe).

Definition generate_products : M G (list Product.t * list PricebookEntry.t) :=
  pairs ← mapM new_product product_names;
  ret (map fst pairs, map snd pairs).

(** *** [generate_opportunities] *)

(** [{pbe.Product2Id: pbe.UnitPrice for pbe in pricebook_entries}]:
    a later entry for the same product replaces an earlier one. *)
Definition price_lookup (pricebook_entries : list PricebookEntry.t)
  : gmap string Q :=
  foldl (fun m pbe =>
           <[PricebookEntry.Product2Id pbe := PricebookEntry.UnitPrice pbe]> m)
        ∅ pricebook_entries.

Definition OPPORTUNITY_NAME_SUFFIXES : list string :=
  ["New"; "Expansion"; "Renewal"].

(** Stage, probability and the closed/won flags, by age of the deal. *)
Definition draw_stage (days_old : Z) : M G (string * Z * bool * bool) :=
  if 180 <? days_old then
    r ← random;
    if Qltb r 0.8 then
      '(stage, prob) ← choice (slice 5 7 STAGES);
      ret (stage, prob, true, String.eqb stage "Closed Won")
    else
      '(stage, prob) ← choice (slice 0 5 STAGES);
      ret (stage, prob, false, false)
  else if 90 <? days_old then
    r ← random;
    if Qltb r 0.5 then
      '(stage, prob) ← choice (slice 5 7 STAGES);
      ret (stage, prob, true, String.eqb stage "Closed Won")
    else
      '(stage, prob) ← choice (slice 2 5 STAGES);
      ret (stage, prob, false, false)
  else
    '(stage, prob) ← choice (slice 0 4 STAGES);
    ret (stage, prob, false, false).

(** Large closed deals have a lower win rate. *)
Definition large_deal_downgrade (amount : Q)
    (s : string * Z * bool * bool) : M G (string * Z * bool * bool) :=
  let '(stage, prob, is_closed, is_won) := s in
  if is_closed && Qltb 100000 amount then
    r ← random;
    if Qltb r 0.3 then ret ("Closed Lost", 0, is_closed, false)
    else ret s
  else ret s.

Definition draw_close_date (now : datetime) (is_closed : bool)
    (created_date : datetime) : M G datetime :=
  if is_closed then
    d ← randint 30 180;
    ret (created_date + d)
  else
    random_date_weighted_quarter_end now (now + 180).

(** One pass of the body of the loop over [selected_products], once
    [item_amount] is known. *)
Definition new_line_item (opp_id : string) (product_prices : gmap string Q)
    (product : Product.t) (item_amount : Q) : M G OpportunityLineItem.t :=
  let unit_price := default 10000%Q (product_prices !! Product.Id product) in
  ratio ← lift_res (py_div item_amount unit_price);
  let quantity := Z.max 1 (py_int ratio) in
  id ← generate_sf_id "00k";
  ret {| OpportunityLineItem.Id := id;
         OpportunityLineItem.OpportunityId := opp_id;
         OpportunityLineItem.Product2Id := Product.Id product;
         OpportunityLineItem.Quantity := quantity;
         OpportunityLineItem.UnitPrice := unit_price;
         OpportunityLineItem.TotalPrice :=
           round2 (inject_Z quantity * unit_price) |}.

(** The loop over [enumerate(selected_products)], carrying
    [remaining_amount]; [j == len(selected_products) - 1] holds exactly
    when no product is left after the current one. *)
Fixpoint line_items_loop (opp_id : string) (product_prices : gmap string Q)
    (remaining_amount : Q) (selected_products : list Product.t)
  : M G (list OpportunityLineItem.t) :=
  match selected_products with
  | [] => ret []
  | product :: rest =>
      '(item_amount, remaining_amount') ←
        match rest with
        | [] => ret (remaining_amount, remaining_amount)
        | _ :: _ =>
            u ← uniform 0.2 0.5;
            let item_amount := round2 (remaining_amount * u) in
            ret (item_amount, (remaining_amount - item_amount)%Q)
        end;
      line_item ← new_line_item opp_id product_prices product item_amount;
      items ← line_items_loop opp_id product_prices remaining_amount' rest;
      ret (line_item :: items)
  end.

Definition new_opportunity (now : datetime) (accounts : list Account.t)
    (active_users : list User.t) (products : list Product.t)
    (product_prices : gmap string Q) (i : nat)
  : M G (Opportunity.t * list OpportunityLineItem.t) :=
  account ← choice accounts;
  created_date ← random_date (START_DATE cfg) (END_DATE cfg - 30);
  base_amount ← lognormvariate 9 1.2;
  let size_multiplier :=
    (1 + inject_Z (Account.NumberOfEmployees account) / 10000)%Q in
  let amount := round2 (base_amount * size_multiplier) in
  let amount := py_max 1000 (py_min amount 500000) in
  let days_old := END_DATE cfg - created_date in
  s ← draw_stage days_old;
  '(stage, prob, is_closed, is_won) ← large_deal_downgrade amount s;
  close_date ← draw_close_date now is_closed created_date;
  opp_id ← generate_sf_id "006";
  suffix ← choice OPPORTUNITY_NAME_SUFFIXES;
  type ← choices_weighted OPPORTUNITY_TYPES OPPORTUNITY_TYPE_WEIGHTS;
  lead_source ← choices_weighted LEAD_SOURCES LEAD_SOURCE_WEIGHTS;
  owner ← choice active_users;
  modified ← randint 1 60;
  let opportunity :=
    {| Opportunity.Id := opp_id;
       Opportunity.AccountId := Account.Id account;
       Opportunity.Name := Account.Name account +:+ " - " +:+ suffix;
       Opportunity.StageName := stage;
       Opportunity.Amount := amount;
       Opportunity.Probability := prob;
       Opportunity.CloseDate := close_date;
       Opportunity.Type_ := type;
       Opportunity.LeadSource := lead_source;
       Opportunity.OwnerId := User.Id owner;
       Opportunity.IsClosed := is_closed;
       Opportunity.IsWon := is_won;
       Opportunity.CreatedDate := created_date;
       Opportunity.LastModifiedDate := created_date + modified |} in
  num_products ← randint 1 3;
  selected_products ←
    sample products (Z.min num_products (Z.of_nat (length products)));
  items ← line_items_loop opp_id product_prices amount selected_products;
  ret (opportunity, items).

(** [now] is the reading of [datetime.now()]. *)
Definition generate_opportunities (now : datetime)
    (accounts : list Account.t) (users : list User.t)
    (products : list Product.t) (pricebook_entries : list PricebookEntry.t)
  : M G (list Opportunity.t * list OpportunityLineItem.t) :=
  let active_users := active users in
  let product_prices := price_lookup pricebook_entries in
  deals ← for_range (NUM_OPPORTUNITIES cfg)
            (new_opportunity now accounts active_users products product_prices);
  ret (map fst deals, concat (map snd deals)).

(** *** [generate_activities] *)

(** The lookups built by
    [if key not in d: d[key] = []] / [d[key].append(x)]. *)
Definition group_by {A} (key : A -> string) (l : list A)
  : gmap string (list A) :=
  foldl (fun m x =>
           match m !! key x with
           | None => <[key x := [x]]> m
           | Some xs => <[key x := xs ++ [x]]> m
           end)
        ∅ l.

Definition subjects (task_type : string) : list string :=
  if String.eqb task_type "Call" then
    ["Discovery call"; "Follow-up call"; "Demo prep call"; "Pricing discussion"]
  else if String.eqb task_type "Email" then
    ["Sent proposal"; "Follow-up email"; "Meeting confirmation"; "Contract review"]
  else if String.eqb task_type "Meeting" then
    ["On-site meeting"; "Quarterly review"; "Executive briefing";
     "Technical deep dive"]
  else if String.eqb task_type "Demo" then
    ["Product demo"; "Technical demo"; "POC review"; "Feature walkthrough"]
  else if String.eqb task_type "Follow-up" then
    ["Post-meeting follow-up"; "Check-in"; "Next steps"; "Status update"]
  else
    ["Research"; "Internal sync"; "Admin task"; "Documentation"].

Definition new_task (accounts : list Account.t)
    (contacts_by_account : gmap string (list Contact.t))
    (opps_by_account : gmap string (list Opportunity.t))
    (active_users : list User.t) (i : nat) : M G Task.t :=
  r ← random;
  account ←
    (if Qltb r 0.7 && negb (bool_decide (opps_by_account = ∅)) then
       choice (filter (fun a => is_Some (opps_by_account !! Account.Id a))
                      accounts)
     else choice accounts);
  contact ←
    match contacts_by_account !! Account.Id account with
    | Some cs => c ← choice cs; ret (Some c)
    | None => ret None
    end;
  activity_date ←
    match opps_by_account !! Account.Id account with
    | Some opps =>
        opp ← choice opps;
        let base_date := Opportunity.CreatedDate opp in
        d ← randint (-30) 90;
        ret (base_date + d)
    | None => random_date (START_DATE cfg) (END_DATE cfg)
    end;
  task_type ← choice TASK_TYPES;
  duration ← (if String.eqb task_type "Call" then randint 60 3600 else ret 0);
  id ← generate_sf_id "00T";
  owner ← choice active_users;
  subject ← choice (subjects task_type);
  status ← choice TASK_STATUSES;
  priority ← choice TASK_PRIORITIES;
  description ← fake fake_sentence;
  ret {| Task.Id := id;
         Task.WhoId := Contact.Id <$> contact;
         Task.WhatId := Account.Id account;
         Task.OwnerId := User.Id owner;
         Task.Subject := subject;
         Task.Status := status;
         Task.Priority := priority;
         Task.Type_ := task_type;
         Task.ActivityDate := activity_date;
         Task.Description := description;
         Task.CallDurationInSeconds := duration;
         Task.CreatedDate := activity_date |}.

Definition generate_activities (accounts : list Account.t)
    (contacts : list Contact.t) (opportunities : list Opportunity.t)
    (users : list User.t) : M G (list Task.t) :=
  let active_users := active users in
  let contacts_by_account := group_by Contact.AccountId contacts in
  let opps_by_account := group_by Opportunity.AccountId opportunities in
  for_range (NUM_ACTIVITIES cfg)
    (new_task accounts contacts_by_account opps_by_account active_users).

(** *** [generate_leads] *)

Definition draw_conversion (created_date : datetime)
  : M G (bool * string * option datetime * option string * option string
         * option string) :=
  r ← random;
  let is_converted := Qltb r 0.30 in
  if is_converted then
    d ← randint 7 90;
    let converted_date := created_date + d in
    converted_account_id ← generate_sf_id "001";
    converted_contact_id ← generate_sf_id "003";
    r' ← random;
    converted_opportunity_id ←
      (if Qltb r' 0.8 then id ← generate_sf_id "006"; ret (Some id)
       else ret None);
    ret (is_converted, "Closed - Converted", Some converted_date,
         Some converted_account_id, Some converted_contact_id,
         converted_opportunity_id)
  else
    status ← choice (slice 0 2 LEAD_STATUSES);
    ret (is_converted, status, None, None, None, None).

Definition new_lead (active_users : list User.t) (i : nat) : M G Lead.t :=
  created_date ← random_date (START_DATE cfg) (END_DATE cfg);
  '(is_converted, status, converted_date, converted_account_id,
    converted_contact_id, converted_opportunity_id) ←
    draw_conversion created_date;
  size ← lognormvariate 4 1.5;
  let employees := py_int (py_max 10 size) in
  let employees := Z.min employees 50000 in
  scale ← uniform 50000 200000;
  let revenue := (inject_Z employees * scale)%Q in
  id ← generate_sf_id "00Q";
  first_name ← fake fake_first_name;
  last_name ← fake fake_last_name;
  company ← fake fake_company;
  title ← choice TITLES;
  email ← fake fake_company_email;
  phone ← fake fake_phone_number;
  rating ← choice LEAD_RATINGS;
  lead_source ← choices_weighted LEAD_SOURCES LEAD_SOURCE_WEIGHTS;
  industry ← choices_weighted INDUSTRIES INDUSTRY_WEIGHTS;
  street ← fake fake_street_address;
  city ← fake fake_city;
  state ← fake fake_state_abbr;
  postcode ← fake fake_postcode;
  description ← fake fake_sentence;
  owner ← choice active_users;
  modified ← randint 1 30;
  ret {| Lead.Id := id;
         Lead.LastName := last_name;
         Lead.FirstName := first_name;
         Lead.Company := company;
         Lead.Title := title;
         Lead.Email := email;
         Lead.Phone := phone;
         Lead.Status := status;
         Lead.Rating := rating;
         Lead.LeadSource := lead_source;
         Lead.Industry := industry;
         Lead.AnnualRevenue := round2 revenue;
         Lead.NumberOfEmployees := employees;
         Lead.Street := street;
         Lead.City := city;
         Lead.State := state;
         Lead.PostalCode := postcode;
         Lead.Country := "USA";
         Lead.Description := description;
         Lead.OwnerId := User.Id owner;
         Lead.IsConverted := is_converted;
         Lead.ConvertedAccountId := converted_account_id;
         Lead.ConvertedContactId := converted_contact_id;
         Lead.ConvertedOpportunityId := converted_opportunity_id;
         Lead.ConvertedDate := converted_date;
         Lead.CreatedDate := created_date;
         Lead.LastModifiedDate := created_date + modified;
         Lead.IsDeleted := false |}.

Definition generate_leads (users : list User.t) : M G (list Lead.t) :=
  let active_users := active users in
  for_range (NUM_LEADS cfg) (new_lead active_users).

(** *** [generate_campaign_members] *)

Definition RESPONDED_STATUSES : list string := ["Responded"; "Attended"].

(** The member count requested for a campaign, capped by the eligible
    pool, according to the campaign type. *)
Definition capped_members (campaign_type : string) (base_members pool : Z)
  : Res Z :=
  if String.eqb campaign_type "Email" then Ok (Z.min base_members pool)
  else if String.eqb campaign_type "Webinar" then
    match int_of_scaled base_members 0.5 with
    | Ok target => Ok (Z.min target pool)
    | Raise e => Raise e
    end
  else
    match int_of_scaled base_members 0.3 with
    | Ok target => Ok (Z.min target pool)
    | Raise e => Raise e
    end.

Definition contact_response_rate (campaign_type : string) : Q :=
  if String.eqb campaign_type "Email" || String.eqb campaign_type "Webinar"
  then 0.15
  else if String.eqb campaign_type "Conference" then 0.40
  else 0.10.

Definition draw_response (rate : Q) : M G (bool * string) :=
  r ← random;
  let has_responded := Qltb r rate in
  status ← (if has_responded then choice RESPONDED_STATUSES else ret "Sent");
  ret (has_responded, status).

Definition contact_member (campaign : Campaign.t) (contact : Contact.t)
  : M G CampaignMember.t :=
  let created := Campaign.CreatedDate campaign in
  '(has_responded, status) ←
    draw_response (contact_response_rate (Campaign.Type_ campaign));
  id ← generate_sf_id "00v";
  modified ← randint 0 7;
  ret {| CampaignMember.Id := id;
         CampaignMember.CampaignId := Campaign.Id campaign;
         CampaignMember.LeadId := None;
         CampaignMember.ContactId := Some (Contact.Id contact);
         CampaignMember.Status := status;
         CampaignMember.HasResponded := has_responded;
         CampaignMember.CreatedDate := created;
         CampaignMember.LastModifiedDate := created + modified |}.

Definition lead_member (campaign : Campaign.t) (lead : Lead.t)
  : M G CampaignMember.t :=
  let created := Campaign.CreatedDate campaign in
  '(has_responded, status) ← draw_response 0.12;
  id ← generate_sf_id "00v";
  modified ← randint 0 7;
  ret {| CampaignMember.Id := id;
         CampaignMember.CampaignId := Campaign.Id campaign;
         CampaignMember.LeadId := Some (Lead.Id lead);
         CampaignMember.ContactId := None;
         CampaignMember.Status := status;
         CampaignMember.HasResponded := has_responded;
         CampaignMember.CreatedDate := created;
         CampaignMember.LastModifiedDate := created + modified |}.

(** Completed campaigns reach everyone targeted; the others a part. *)
Definition base_members_of (campaign : Campaign.t) : M G Z :=
  if String.eqb (Campaign.Status campaign) "Completed" then
    ret (Campaign.NumberSent campaign)
  else
    u ← uniform 0.3 0.7;
    lift_res (int_of_scaled (Campaign.NumberSent campaign) u).

Definition members_of_campaign (contacts : list Contact.t)
    (unconverted_leads : list Lead.t) (campaign : Campaign.t)
  : M G (list CampaignMember.t) :=
  base_members ← base_members_of campaign;
  let pool := Z.of_nat (length contacts) + Z.of_nat (length unconverted_leads) in
  num_members ←
    lift_res (capped_members (Campaign.Type_ campaign) base_members pool);
  num_contacts ← lift_res (int_of_scaled num_members 0.70);
  let num_leads := num_members - num_contacts in
  selected_contacts ←
    sample contacts (Z.min num_contacts (Z.of_nat (length contacts)));
  contact_members ← mapM (contact_member campaign) selected_contacts;
  selected_leads ←
    sample unconverted_leads
           (Z.min num_leads (Z.of_nat (length unconverted_leads)));
  lead_members ← mapM (lead_member campaign) selected_leads;
  ret (contact_members ++ lead_members).

Definition generate_campaign_members (campaigns : list Campaign.t)
    (leads : list Lead.t) (contacts : list Contact.t)
  : M G (list CampaignMember.t) :=
  let unconverted_leads := filter (fun l => Lead.IsConverted l = false) leads in
  groups ← mapM (members_of_campaign contacts unconverted_leads) campaigns;
  ret (concat groups).

End Generators.

(** * Reasoning principles *)

(** ** The monad *)

Section MonadFacts.
Context {G : Type}.

Lemma bind_Ok {A B} (c : M G A) (k : A -> M G B) g r :
  (c ≫= k) g = Ok r <-> exists a g1, c g = Ok (a, g1) /\ k a g1 = Ok r.
Proof.
  unfold mbind, M_bind, bind. destruct (c g) as [[a g1]|e]; split.
  - intros Hk. now exists a, g1.
  - intros (a' & g' & Hc & Hk). now inversion Hc; subst.
  - discriminate.
  - intros (a' & g' & Hc & _). discriminate.
Qed.

Lemma post_ret {A} (a : A) (P : A -> Prop) : P a -> post (ret a : M G A) P.
Proof. intros HP g b g' Hr. now inversion Hr; subst. Qed.

Lemma post_bind {A B} (c : M G A) (k : A -> M G B) (P : A -> Prop)
      (Q : B -> Prop) :
  post c P -> (forall a, P a -> post (k a) Q) -> post (c ≫= k) Q.
Proof.
  intros Hc Hk g b g' Hr. apply bind_Ok in Hr as (a & g1 & Ha & Hb).
  eapply Hk; eauto.
Qed.

Lemma post_mono {A} (c : M G A) (P Q : A -> Prop) :
  post c P -> (forall a, P a -> Q a) -> post c Q.
Proof. intros Hc HPQ g a g' Hr. eauto. Qed.

Lemma post_trivial {A} (c : M G A) : post c (fun _ => True).
Proof. now intros g a g' _. Qed.

Lemma post_raise {A} e (P : A -> Prop) : post (raise e : M G A) P.
Proof. intros g a g' Hr. discriminate. Qed.

Lemma post_lift_res {A} (r : Res A) (P : A -> Prop) :
  (forall a, r = Ok a -> P a) -> post (lift_res r : M G A) P.
Proof.
  intros HP g a g' Hr. unfold lift_res in Hr. destruct r; [|discriminate].
  inversion Hr; subst. now apply HP.
Qed.

Lemma post_mapM {A B} (f : A -> M G B) (R : A -> B -> Prop) (l : list A) :
  (forall x, x ∈ l -> post (f x) (R x)) -> post (mapM f l) (Forall2 R l).
Proof.
  induction l as [|x l IH]; intros Hf; simpl.
  - apply post_ret. constructor.
  - eapply post_bind; [apply Hf; left|]. intros y Hy.
    eapply post_bind; [apply IH; intros z Hz; apply Hf; now right|].
    intros ys Hys. apply post_ret. now constructor.
Qed.

Lemma post_mapM_Forall {A B} (f : A -> M G B) (P : B -> Prop) (l : list A) :
  (forall x, x ∈ l -> post (f x) P) -> post (mapM f l) (Forall P).
Proof.
  intros Hf g ys g' Hr.
  pose proof (post_mapM f (fun _ => P) l Hf g ys g' Hr) as Hys.
  clear - Hys. induction Hys; constructor; auto.
Qed.

Lemma post_mapM_length {A B} (f : A -> M G B) (l : list A) :
  post (mapM f l) (fun ys => length ys = length l).
Proof.
  intros g ys g' Hr.
  assert (Hys : Forall2 (fun _ _ => True) l ys).
  { eapply post_mapM; [|exact Hr]. intros; apply post_trivial. }
  symmetry. eapply Forall2_length, Hys.
Qed.

Lemma post_for_range {B} (n : Z) (body : nat -> M G B) (P : B -> Prop) :
  (forall i, post (body i) P) ->
  post (for_range n body) (fun ys => Forall P ys /\ length ys = Z.to_nat n).
Proof.
  intros Hb g ys g' Hr. split.
  - eapply post_mapM_Forall; [|exact Hr]. intros; apply Hb.
  - erewrite (post_mapM_length _ _ g ys g' Hr). apply length_seq.
Qed.

Lemma succeeds_ret {A} (a : A) : succeeds (ret a : M G A).
Proof. intros g. now exists a, g. Qed.

Lemma succeeds_bind {A B} (c : M G A) (k : A -> M G B) (P : A -> Prop) :
  succeeds c -> post c P -> (forall a, P a -> succeeds (k a)) ->
  succeeds (c ≫= k).
Proof.
  intros Hc HP Hk g. destruct (Hc g) as (a & g1 & Ha).
  destruct (Hk a (HP _ _ _ Ha) g1) as (b & g2 & Hb).
  exists b, g2. apply bind_Ok. eauto.
Qed.

Lemma succeeds_lift {A} (f : G -> A * G) : succeeds (lift f).
Proof. intros g. exists (fst (f g)), (snd (f g)). unfold lift. now destruct (f g). Qed.

Lemma succeeds_mapM {A B} (f : A -> M G B) (l : list A) :
  (forall x, x ∈ l -> succeeds (f x)) -> succeeds (mapM f l).
Proof.
  induction l as [|x l IH]; intros Hf; simpl.
  - apply succeeds_ret.
  - eapply succeeds_bind; [apply Hf; left|apply post_trivial|]. intros y _.
    eapply succeeds_bind;
      [apply IH; intros z Hz; apply Hf; now right|apply post_trivial|].
    intros ys _. apply succeeds_ret.
Qed.

Lemma succeeds_for_range {B} (n : Z) (body : nat -> M G B) :
  (forall i, succeeds (body i)) -> succeeds (for_range n body).
Proof. intros Hb. apply succeeds_mapM. intros; apply Hb. Qed.

End MonadFacts.

(** Step through a bind whose result is not needed ([post_skip],
    [succ_skip]) or is described by a lemma ([post_use], [succ_use]). *)
Ltac post_skip :=
  eapply post_bind; [apply post_trivial | intros ? _].
Tactic Notation "post_use" uconstr(lem) :=
  eapply post_bind;
  [eapply lem | let H := fresh "Hpost" in intros ? H; cbv beta in H].
Tactic Notation "succ_skip" uconstr(lem) :=
  eapply succeeds_bind; [eapply lem | apply post_trivial | intros ? _].
Tactic Notation "succ_use" uconstr(lem) uconstr(plem) :=
  eapply succeeds_bind;
  [eapply lem | eapply plem
  | let H := fresh "Hpost" in intros ? H; cbv beta in H].

(** ** Rational arithmetic *)

Lemma inject_Z_nonneg n : 0 <= n -> (0 <= inject_Z n)%Q.
Proof. intros Hn. unfold Qle; simpl; lia. Qed.

Lemma inject_Z_pos n : 0 < n -> (0 < inject_Z n)%Q.
Proof. intros Hn. unfold Qlt; simpl; lia. Qed.

Lemma floor_scaled_range (r : Q) (n : Z) :
  (0 <= r < 1)%Q -> 0 < n -> 0 <= Qfloor (r * inject_Z n) < n.
Proof.
  intros [Hr0 Hr1] Hn.
  pose proof (inject_Z_pos n Hn) as Hq.
  split.
  - rewrite <- (Qfloor_Z 0). apply Qfloor_resp_le.
    apply Qmult_le_0_compat; [exact Hr0 | lra].
  - assert (Hlt : (r * inject_Z n < inject_Z n)%Q).
    { apply Qlt_le_trans with (1 * inject_Z n)%Q.
      - apply Qmult_lt_compat_r; assumption.
      - rewrite Qmult_1_l. apply Qle_refl. }
    pose proof (Qfloor_le (r * inject_Z n)) as Hle.
    rewrite Zlt_Qlt. eapply Qle_lt_trans; eauto.
Qed.

Lemma Qltb_lt x y : Qltb x y = true <-> (x < y)%Q.
Proof.
  unfold Qltb. rewrite negb_true_iff. split.
  - intros Hb. apply Qnot_le_lt. intros Hle. apply Qle_bool_iff in Hle.
    congruence.
  - intros Hlt. destruct (Qle_bool y x) eqn:Hb; [|reflexivity].
    apply Qle_bool_iff in Hb. apply Qlt_not_le in Hlt. contradiction.
Qed.

Lemma Qltb_ge x y : Qltb x y = false <-> (y <= x)%Q.
Proof. unfold Qltb. rewrite negb_false_iff. apply Qle_bool_iff. Qed.

(** Rounding moves a value by at most one half. *)
Lemma round_half_even_near x :
  (x - 0.5 <= inject_Z (round_half_even x) <= x + 0.5)%Q.
Proof.
  unfold round_half_even.
  pose proof (Qfloor_le x) as Hlo. pose proof (Qlt_floor x) as Hhi.
  rewrite inject_Z_plus in Hhi. change (inject_Z 1) with 1%Q in Hhi.
  destruct (Qltb (x - inject_Z (Qfloor x)) 0.5) eqn:H1.
  { apply Qltb_lt in H1. lra. }
  apply Qltb_ge in H1.
  destruct (Qltb 0.5 (x - inject_Z (Qfloor x))) eqn:H2.
  { rewrite inject_Z_plus. change (inject_Z 1) with 1%Q. lra. }
  apply Qltb_ge in H2.
  destruct (Z.even (Qfloor x)); [lra|].
  rewrite inject_Z_plus. change (inject_Z 1) with 1%Q. lra.
Qed.

Ltac unfold_round2 :=
  unfold round2, Qdiv; change (/ 100)%Q with (1 # 100)%Q.

Lemma round2_near x : (x - 0.005 <= round2 x <= x + 0.005)%Q.
Proof.
  unfold_round2. pose proof (round_half_even_near (x * 100)) as Hr. lra.
Qed.

Lemma round2_nonneg x : (0 <= x)%Q -> (0 <= round2 x)%Q.
Proof.
  intros Hx. unfold_round2.
  pose proof (round_half_even_near (x * 100)) as Hr.
  assert (Hz : -1 < round_half_even (x * 100)).
  { rewrite Zlt_Qlt. change (inject_Z (-1)) with (-1 # 1)%Q. lra. }
  assert (0 <= inject_Z (round_half_even (x * 100)))%Q
    by (apply inject_Z_nonneg; lia).
  lra.
Qed.

(** A rounded share of at most half of what remains does not exceed it. *)
Lemma round2_fraction_le rem u :
  (0 <= rem)%Q -> (0 <= u <= 0.5)%Q -> (round2 (rem * u) <= rem)%Q.
Proof.
  intros Hrem [Hu0 Hu1]. unfold_round2.
  pose proof (round_half_even_near (rem * u * 100)) as Hr.
  assert (Hmul : (rem * u <= rem * 0.5)%Q).
  { rewrite !(Qmult_comm rem). apply Qmult_le_compat_r; assumption. }
  destruct (Qlt_le_dec (rem * 100) 1) as [Hsmall|Hbig].
  - assert (Hz : round_half_even (rem * u * 100) < 1).
    { rewrite Zlt_Qlt. change (inject_Z 1) with 1%Q. lra. }
    assert (inject_Z (round_half_even (rem * u * 100)) <= 0)%Q.
    { change 0%Q with (inject_Z 0). rewrite <- Zle_Qle. lia. }
    lra.
  - lra.
Qed.

(** On a non-negative value [int] is the floor. *)
Lemma py_int_floor x : (0 <= x)%Q -> py_int x = Qfloor x.
Proof.
  destruct x as [n d]. unfold Qle, py_int, Qfloor. simpl. intros Hn.
  apply Z.quot_div_nonneg; lia.
Qed.

Lemma py_int_nonneg x : (0 <= x)%Q -> 0 <= py_int x.
Proof.
  intros Hx. rewrite py_int_floor by assumption.
  rewrite <- (Qfloor_Z 0). now apply Qfloor_resp_le.
Qed.

Lemma py_int_le x : (0 <= x)%Q -> (inject_Z (py_int x) <= x)%Q.
Proof. intros Hx. rewrite py_int_floor by assumption. apply Qfloor_le. Qed.

Lemma py_int_scaled_le n (u : Q) :
  0 <= n -> (0 <= u <= 1)%Q -> 0 <= py_int (inject_Z n * u) <= n.
Proof.
  intros Hn [Hu0 Hu1]. pose proof (inject_Z_nonneg n Hn) as Hq.
  assert (Hx : (0 <= inject_Z n * u)%Q) by (apply Qmult_le_0_compat; assumption).
  split; [now apply py_int_nonneg|].
  pose proof (py_int_le _ Hx) as Hle.
  assert (Hmul : (inject_Z n * u <= inject_Z n * 1)%Q).
  { rewrite !(Qmult_comm (inject_Z n)). apply Qmult_le_compat_r; assumption. }
  rewrite Zle_Qle. lra.
Qed.

(** [max(1, int(a / p)) * p] is within [p] of [a]. *)
Lemma quantity_total_near (a p : Q) :
  (0 <= a)%Q -> (0 < p)%Q ->
  (a - p <= inject_Z (Z.max 1 (py_int (a / p))) * p <= a + p)%Q.
Proof.
  intros Ha Hp.
  assert (Hx : (0 <= a / p)%Q).
  { unfold Qdiv. apply Qmult_le_0_compat; [assumption|].
    apply Qinv_le_0_compat. lra. }
  rewrite (py_int_floor _ Hx).
  pose proof (Qfloor_le (a / p)) as Hlo. pose proof (Qlt_floor (a / p)) as Hhi.
  rewrite inject_Z_plus in Hhi. change (inject_Z 1) with 1%Q in Hhi.
  assert (Hap : (a / p * p == a)%Q) by (field; lra).
  assert (Hlo' : (inject_Z (Qfloor (a / p)) * p <= a / p * p)%Q)
    by (apply Qmult_le_compat_r; lra).
  assert (Hhi' : (a / p * p < (inject_Z (Qfloor (a / p)) + 1) * p)%Q)
    by (apply Qmult_lt_compat_r; lra).
  destruct (Z.max_spec 1 (Qfloor (a / p))) as [[Hlt ->]|[Hge ->]].
  - lra.
  - assert (Hf : Qfloor (a / p) = 0 \/ Qfloor (a / p) = 1).
    { assert (0 <= Qfloor (a / p)).
      { rewrite <- (Qfloor_Z 0). now apply Qfloor_resp_le. }
      lia. }
    destruct Hf as [Hf|Hf]; rewrite Hf in *.
    + change (inject_Z 0) with 0%Q in *. change (inject_Z 1) with 1%Q. lra.
    + change (inject_Z 1) with 1%Q in *. lra.
Qed.

(** ** The random primitives *)

Section RandomFacts.
Context {G : Type} `{RandomSource G}.

Lemma post_lift {A} (f : G -> A * G) (P : A -> Prop) :
  (forall g, P (fst (f g))) -> post (lift f) P.
Proof. intros HP g a g' Hr. inversion Hr as [Hf]. specialize (HP g). now rewrite Hf in HP. Qed.

Lemma post_random : post random (fun r => (0 <= r < 1)%Q).
Proof. apply post_lift, rs_random_range. Qed.

Lemma succeeds_random : succeeds random.
Proof. apply succeeds_lift. Qed.

Lemma succeeds_fake p : succeeds (fake p).
Proof. apply succeeds_lift. Qed.

Lemma succeeds_lognormvariate mu sigma : succeeds (lognormvariate mu sigma).
Proof. apply succeeds_lift. Qed.

Lemma post_randbelow n : 0 < n -> post (randbelow n) (fun i => 0 <= i < n).
Proof. intros Hn. apply post_lift. intros g. now apply rs_below_range. Qed.

Lemma post_randint a b : post (randint a b) (fun x => a <= x <= b).
Proof.
  unfold randint. destruct (Z.ltb_spec b a); [apply post_raise|].
  post_use (post_randbelow (b - a + 1)); [lia|].
  apply post_ret. lia.
Qed.

Lemma succeeds_randint a b : a <= b -> succeeds (randint a b).
Proof.
  intros Hab. unfold randint. destruct (Z.ltb_spec b a); [lia|].
  succ_skip (succeeds_lift (rs_below (b - a + 1))). apply succeeds_ret.
Qed.

Lemma post_uniform a b :
  (a <= b)%Q -> post (uniform a b) (fun u => (a <= u <= b)%Q).
Proof.
  intros Hab. unfold uniform. post_use post_random.
  apply post_ret.
  assert (0 <= (b - a) * a0)%Q by (apply Qmult_le_0_compat; lra).
  assert ((b - a) * a0 <= (b - a) * 1)%Q
    by (apply Qmult_le_compat_nonneg; lra).
  lra.
Qed.

Lemma succeeds_uniform a b : succeeds (uniform a b).
Proof. unfold uniform. succ_skip succeeds_random. apply succeeds_ret. Qed.

Lemma post_index {A} (l : list A) i : post (index (G:=G) l i) (fun x => x ∈ l).
Proof.
  unfold index. destruct (l !! i) as [x|] eqn:Hx; [|apply post_raise].
  apply post_ret. eapply list_elem_of_lookup_2, Hx.
Qed.

Lemma succeeds_index {A} (l : list A) i :
  (i < length l)%nat -> succeeds (index (G:=G) l i).
Proof.
  intros Hi. unfold index. destruct (lookup_lt_is_Some_2 l i Hi) as [x ->].
  apply succeeds_ret.
Qed.

Lemma post_choice {A} (l : list A) : post (choice l) (fun x => x ∈ l).
Proof.
  unfold choice. destruct l as [|y l]; [apply post_raise|].
  post_skip. apply post_index.
Qed.

Lemma succeeds_choice {A} (l : list A) : l <> [] -> succeeds (choice l).
Proof.
  intros Hl. unfold choice. destruct l as [|y l]; [done|].
  succ_use (succeeds_lift (rs_below (Z.of_nat (length (y :: l)))))
           (post_randbelow (Z.of_nat (length (y :: l)))).
  { simpl length. lia. }
  apply succeeds_index. lia.
Qed.

Lemma succeeds_choices_uniform {A} (population : list A) k :
  population <> [] -> succeeds (choices_uniform population k).
Proof.
  intros Hp. unfold choices_uniform. apply succeeds_mapM. intros _ _.
  succ_use succeeds_random post_random. apply succeeds_index.
  assert (Hn : (0 < length population)%nat)
    by (destruct population; [done|simpl; lia]).
  pose proof (floor_scaled_range a (Z.of_nat (length population)) Hpost).
  lia.
Qed.

Lemma succeeds_generate_sf_id prefix : succeeds (generate_sf_id prefix).
Proof.
  unfold generate_sf_id. succ_skip (succeeds_choices_uniform sf_alphabet 15).
  { discriminate. }
  apply succeeds_ret.
Qed.

Lemma post_sample {A} (l : list A) k :
  post (sample l k)
       (fun xs => Forall (fun x => x ∈ l) xs /\ length xs = Z.to_nat k).
Proof.
  unfold sample.
  destruct ((k <? 0) || (Z.of_nat (length l) <? k)) eqn:Hk; [apply post_raise|].
  apply orb_false_iff in Hk as [Hk1 Hk2].
  apply Z.ltb_ge in Hk1, Hk2.
  eapply post_bind.
  - apply (post_lift _ (fun idxs => length idxs = Z.to_nat k)).
    intros g. apply rs_sample_spec. lia.
  - intros idxs Hlen g xs g' Hr. split.
    + eapply post_mapM_Forall; [|exact Hr]. intros; apply post_index.
    + rewrite <- Hlen. eapply post_mapM_length, Hr.
Qed.

Lemma succeeds_sample {A} (l : list A) k :
  0 <= k <= Z.of_nat (length l) -> succeeds (sample l k).
Proof.
  intros Hk. unfold sample.
  destruct (Z.ltb_spec k 0); [lia|].
  destruct (Z.ltb_spec (Z.of_nat (length l)) k); [lia|]. simpl.
  eapply succeeds_bind.
  - apply succeeds_lift.
  - apply (post_lift _ (Forall (fun i => (i < length l)%nat))).
    intros g. apply rs_sample_spec. lia.
  - intros idxs Hidx. apply succeeds_mapM. intros i Hi.
    apply succeeds_index. rewrite Forall_forall in Hidx. auto.
Qed.

Lemma post_random_date start end_ :
  post (random_date start end_) (fun d => start <= d <= end_).
Proof.
  unfold random_date. post_use post_randint. apply post_ret. lia.
Qed.

Lemma succeeds_random_date start end_ :
  start <= end_ -> succeeds (random_date start end_).
Proof.
  intros Hse. unfold random_date. succ_skip succeeds_randint; [lia|].
  apply succeeds_ret.
Qed.

End RandomFacts.

(** * Users: the manager hierarchy *)

Section UserFacts.
Context {G : Type} `{RandomSource G}.
Variable cfg : Config.

Lemma post_sales_rep manager_id i :
  post (sales_rep cfg manager_id i)
       (fun u => User.ManagerId u = Some manager_id).
Proof. unfold sales_rep. repeat post_skip. now apply post_ret. Qed.

Lemma succeeds_sales_rep manager_id i :
  START_DATE cfg - 365 <= END_DATE cfg ->
  succeeds (sales_rep cfg manager_id i).
Proof.
  intros Hdates. unfold sales_rep.
  succ_skip succeeds_generate_sf_id.
  do 3 succ_skip succeeds_fake.
  succ_skip (succeeds_choice DEPARTMENTS); [discriminate|].
  succ_skip succeeds_generate_sf_id.
  succ_skip succeeds_random.
  succ_skip succeeds_random_date; [assumption|].
  apply succeeds_ret.
Qed.

Lemma post_generate_users :
  post (generate_users cfg)
       (fun users => exists root reps,
            users = root :: reps /\
            User.ManagerId root = None /\
            length reps = Z.to_nat (NUM_USERS cfg - 1) /\
            Forall (fun u => User.ManagerId u = Some (User.Id root)) reps).
Proof.
  unfold generate_users.
  eapply post_bind; [apply post_trivial|]. intros manager_id _.
  do 4 post_skip.
  post_use (post_for_range (NUM_USERS cfg - 1) (sales_rep cfg manager_id)).
  { apply post_sales_rep. }
  destruct Hpost as [Hreps Hlen].
  apply post_ret. eexists _, _. split; [reflexivity|]. simpl. auto.
Qed.

Lemma succeeds_generate_users :
  START_DATE cfg - 365 <= END_DATE cfg -> succeeds (generate_users cfg).
Proof.
  intros Hdates. unfold generate_users.
  succ_skip succeeds_generate_sf_id.
  do 3 succ_skip succeeds_fake.
  succ_skip succeeds_generate_sf_id.
  succ_skip (@succeeds_for_range G User.t).
  { intros i. now apply succeeds_sales_rep. }
  apply succeeds_ret.
Qed.

End UserFacts.

(** C9.  With a target count of 25 the user generator returns 25 users: the
    first one, the root, has no manager, and each of the 24 others has the
    root's [Id] as its [ManagerId] (so the root is the only user without a
    manager). *)
Theorem generate_users_single_root {G : Type} `{RandomSource G}
    (cfg : Config) (g : G) :
  NUM_USERS cfg = 25 ->
  START_DATE cfg - 365 <= END_DATE cfg ->
  exists root reps g',
    generate_users cfg g = Ok (root :: reps, g') /\
    User.ManagerId root = None /\
    length reps = 24%nat /\
    Forall (fun u => User.ManagerId u = Some (User.Id root)) reps.
Proof.
  intros Hn Hdates.
  destruct (succeeds_generate_users cfg Hdates g) as (users & g' & Hrun).
  destruct (post_generate_users cfg g users g' Hrun)
    as (root & reps & -> & Hroot & Hlen & Hreps).
  exists root, reps, g'. rewrite Hn in Hlen. auto.
Qed.

Lemma generate_users_single_root_witness :
  exists root reps g',
    generate_users default_config ([] : Tape) = Ok (root :: reps, g') /\
    User.ManagerId root = None /\
    length reps = 24%nat /\
    Forall (fun u => User.ManagerId u = Some (User.Id root)) reps.
Proof.
  apply (generate_users_single_root default_config ([] : Tape)).
  - reflexivity.
  - vm_compute. discriminate.
Defined.

(** * Contacts: how many per account *)

(** The sum over the accounts of
    [min(5, max(1, account.NumberOfEmployees // 100))]. *)
Definition total_max_contacts (accounts : list Account.t) : Z :=
  foldr (fun account acc => max_contacts account + acc) 0 accounts.

(** The contacts made for one account: at least one, at most the account's
    maximum, each carrying the account's id. *)
Definition contacts_ok (account : Account.t) (cs : list Contact.t) : Prop :=
  1 <= Z.of_nat (length cs) <= max_contacts account /\
  Forall (fun contact => Contact.AccountId contact = Account.Id account) cs.

Section ContactFacts.
Context {G : Type} `{RandomSource G}.
Variable cfg : Config.

Lemma bisect_right_le a x hi : (bisect_right a x hi <= hi)%nat.
Proof.
  revert a. induction hi as [|hi IH]; intros [|y a]; simpl; try lia.
  destruct (Qle_bool y x); [|lia]. specialize (IH a). lia.
Qed.

Lemma succeeds_choices_weighted {A} (population : list A) (weights : list Q) :
  population <> [] ->
  length (accumulate_from 0 weights) = length population ->
  (forall total, last (accumulate_from 0 weights) = Some total ->
                 Qle_bool total 0 = false) ->
  succeeds (choices_weighted population weights).
Proof.
  intros Hne Hlen Htotal. unfold choices_weighted.
  rewrite Hlen, Nat.eqb_refl. simpl.
  destruct (last (accumulate_from 0 weights)) as [total|] eqn:Hlast.
  - rewrite (Htotal total eq_refl).
    succ_skip succeeds_random. apply succeeds_index.
    pose proof (bisect_right_le (accumulate_from 0 weights)
                                (a * total)%Q (length population - 1)).
    destruct population; [done|]. simpl in *. lia.
  - apply last_None in Hlast. rewrite Hlast in Hlen.
    destruct population; [done|discriminate].
Qed.

Lemma succeeds_lead_source :
  succeeds (choices_weighted LEAD_SOURCES LEAD_SOURCE_WEIGHTS).
Proof.
  apply succeeds_choices_weighted; [discriminate|reflexivity|].
  intros total Ht. vm_compute in Ht. now inversion Ht.
Qed.

Lemma succeeds_new_contact account i : succeeds (new_contact account i).
Proof.
  unfold new_contact.
  succ_skip succeeds_generate_sf_id.
  do 4 succ_skip succeeds_fake.
  succ_skip (succeeds_choice TITLES); [discriminate|].
  succ_skip (succeeds_choice CONTACT_DEPARTMENTS); [discriminate|].
  succ_skip succeeds_lead_source.
  apply succeeds_ret.
Qed.

Lemma max_contacts_range account : 1 <= max_contacts account <= 5.
Proof. unfold max_contacts. lia. Qed.

Lemma post_new_contact account i :
  post (new_contact account i)
       (fun contact => Contact.AccountId contact = Account.Id account).
Proof. unfold new_contact. do 8 post_skip. now apply post_ret. Qed.

Lemma post_contacts_of_account account :
  post (contacts_of_account account) (contacts_ok account).
Proof.
  unfold contacts_of_account. post_use post_randint.
  eapply post_mono.
  { apply (post_for_range a (new_contact account)
             (fun contact => Contact.AccountId contact = Account.Id account)).
    intros; apply post_new_contact. }
  intros cs [Hall Hlen]. split; [rewrite Hlen; lia|exact Hall].
Qed.

Lemma succeeds_contacts_of_account account :
  succeeds (contacts_of_account account).
Proof.
  unfold contacts_of_account.
  succ_skip succeeds_randint.
  { pose proof (max_contacts_range account). lia. }
  apply succeeds_for_range. intros; apply succeeds_new_contact.
Qed.

Lemma contacts_groups_count (accounts : list Account.t)
      (groups : list (list Contact.t)) :
  Forall2 contacts_ok accounts groups ->
  Z.of_nat (length accounts) <= Z.of_nat (length (concat groups))
    <= total_max_contacts accounts.
Proof.
  induction 1 as [|account cs accounts groups [Hcs _] _ IH]; simpl; [lia|].
  rewrite length_app. lia.
Qed.

(** The contacts come in account order, one group per account. *)
Lemma post_generate_contacts accounts users :
  post (generate_contacts accounts users)
       (fun contacts => exists groups,
            contacts = concat groups /\
            Forall2 contacts_ok accounts groups).
Proof.
  unfold generate_contacts.
  post_use (post_mapM contacts_of_account contacts_ok).
  { intros; apply post_contacts_of_account. }
  apply post_ret. now exists a.
Qed.

Lemma succeeds_generate_contacts accounts users :
  succeeds (generate_contacts accounts users).
Proof.
  unfold generate_contacts.
  succ_skip (succeeds_mapM contacts_of_account).
  { intros; apply succeeds_contacts_of_account. }
  apply succeeds_ret.
Qed.

End ContactFacts.

(** C5 (as amended).  The contact generator always returns.  The contacts
    it returns come in account order, one group per account: the group of an
    account holds between 1 and [min(5, max(1, NumberOfEmployees // 100))]
    contacts, each carrying the account's id in [AccountId].  Hence the
    number of contacts lies between the number of accounts and the sum over
    the accounts of that per-account maximum. *)
Theorem generate_contacts_count_bounds {G : Type} `{RandomSource G}
    (accounts : list Account.t) (users : list User.t) (g : G) :
  exists groups g',
    generate_contacts accounts users g = Ok (concat groups, g') /\
    Forall2 (fun account cs =>
               1 <= Z.of_nat (length cs)
                 <= Z.min 5 (Z.max 1 (Account.NumberOfEmployees account / 100)) /\
               Forall (fun contact =>
                         Contact.AccountId contact = Account.Id account) cs)
            accounts groups /\
    Z.of_nat (length accounts) <= Z.of_nat (length (concat groups))
      <= total_max_contacts accounts.
Proof.
  destruct (succeeds_generate_contacts accounts users g)
    as (contacts & g' & Hrun).
  destruct (post_generate_contacts accounts users g contacts g' Hrun)
    as (groups & -> & Hgroups).
  exists groups, g'. split; [exact Hrun|]. split; [exact Hgroups|].
  now apply contacts_groups_count.
Qed.

(** A 500-employee account: its per-account maximum is 5 contacts. *)
Definition acme : Account.t :=
  {| Account.Id := "001Acme00000000001";
     Account.Name := "Acme Ltd";
     Account.Industry := "Technology";
     Account.Type_ := "Customer";
     Account.NumberOfEmployees := 500;
     Account.AnnualRevenue := 50000000;
     Account.BillingStreet := "1 Main Street";
     Account.BillingCity := "Springfield";
     Account.BillingState := "IL";
     Account.BillingPostalCode := "62701";
     Account.BillingCountry := "USA";
     Account.OwnerId := "005Owner0000000001";
     Account.CreatedDate := Calendar.ordinal 2023 3 1;
     Account.LastModifiedDate := Calendar.ordinal 2023 3 5 |}.

(** C5 (as stated) fails: for the single account [acme] the sum of the
    per-account maxima is 5, but when [random.randint(1, 5)] draws 1 the
    generator returns one contact. *)
Lemma generate_contacts_count_counterexample :
  exists contacts t',
    generate_contacts [acme] [] ([0] : Tape) = Ok (contacts, t') /\
    total_max_contacts [acme] = 5 /\
    length contacts = 1%nat /\
    Z.of_nat (length contacts) <> total_max_contacts [acme].
Proof.
  eexists _, _. split; [vm_compute; reflexivity|].
  split; [reflexivity|]. split; [reflexivity|]. vm_compute. discriminate.
Qed.

(** * Campaign members: one person reference each *)

Definition exactly_one_person (m : CampaignMember.t) : Prop :=
  (CampaignMember.LeadId m <> None /\ CampaignMember.ContactId m = None) \/
  (CampaignMember.LeadId m = None /\ CampaignMember.ContactId m <> None).

Section CampaignMemberFacts.
Context {G : Type} `{RandomSource G}.

Lemma post_contact_member campaign contact :
  post (contact_member campaign contact) exactly_one_person.
Proof.
  unfold contact_member.
  eapply post_bind; [apply post_trivial|]. intros [has_responded status] _.
  do 2 post_skip. apply post_ret. right. now split.
Qed.

Lemma post_lead_member campaign lead :
  post (lead_member campaign lead) exactly_one_person.
Proof.
  unfold lead_member.
  eapply post_bind; [apply post_trivial|]. intros [has_responded status] _.
  do 2 post_skip. apply post_ret. left. now split.
Qed.

Lemma post_members_of_campaign contacts unconverted_leads campaign :
  post (members_of_campaign contacts unconverted_leads campaign)
       (Forall exactly_one_person).
Proof.
  unfold members_of_campaign. do 4 post_skip.
  post_use (post_mapM_Forall (contact_member campaign) exactly_one_person).
  { intros; apply post_contact_member. }
  post_skip.
  post_use (post_mapM_Forall (lead_member campaign) exactly_one_person).
  { intros; apply post_lead_member. }
  apply post_ret. now apply Forall_app.
Qed.

Lemma post_generate_campaign_members campaigns leads contacts :
  post (generate_campaign_members campaigns leads contacts)
       (Forall exactly_one_person).
Proof.
  unfold generate_campaign_members.
  post_use (post_mapM_Forall
              (members_of_campaign contacts
                 (filter (fun l => Lead.IsConverted l = false) leads))
              (Forall exactly_one_person)).
  { intros; apply post_members_of_campaign. }
  apply post_ret. now apply Forall_concat.
Qed.

End CampaignMemberFacts.

(** C3.  Every CampaignMember returned by the generator has exactly one of
    [LeadId] and [ContactId] set: never both, never neither. *)
Theorem campaign_member_exactly_one_person {G : Type} `{RandomSource G}
    (campaigns : list Campaign.t) (leads : list Lead.t)
    (contacts : list Contact.t) (g g' : G)
    (members : list CampaignMember.t) :
  generate_campaign_members campaigns leads contacts g = Ok (members, g') ->
  Forall exactly_one_person members.
Proof. apply post_generate_campaign_members. Qed.

(** * Leads: the conversion fields *)

Definition conversion_consistent (l : Lead.t) : Prop :=
  (Lead.IsConverted l = true <->
     Lead.ConvertedAccountId l <> None /\
     Lead.ConvertedContactId l <> None /\
     Lead.ConvertedDate l <> None) /\
  (Lead.IsConverted l = false ->
     Lead.ConvertedAccountId l = None /\
     Lead.ConvertedContactId l = None /\
     Lead.ConvertedOpportunityId l = None /\
     Lead.ConvertedDate l = None).

Section LeadFacts.
Context {G : Type} `{RandomSource G}.
Variable cfg : Config.

Definition conversion_ok
    (c : bool * string * option datetime * option string * option string
         * option string) : Prop :=
  let '(is_converted, _, date, account_id, contact_id, opportunity_id) := c in
  if is_converted
  then account_id <> None /\ contact_id <> None /\ date <> None
  else account_id = None /\ contact_id = None /\ opportunity_id = None /\
       date = None.

Lemma post_draw_conversion created_date :
  post (draw_conversion created_date) conversion_ok.
Proof.
  unfold draw_conversion.
  eapply post_bind; [apply post_trivial|]. intros r _.
  destruct (Qltb r 0.30).
  - repeat post_skip. now apply post_ret.
  - post_skip. now apply post_ret.
Qed.

Lemma post_new_lead active_users i :
  post (new_lead cfg active_users i) conversion_consistent.
Proof.
  unfold new_lead. post_skip.
  eapply post_bind; [apply post_draw_conversion|].
  intros [[[[[is_converted status] date] account_id] contact_id] opp_id] Hc.
  repeat post_skip. apply post_ret.
  unfold conversion_consistent; simpl. unfold conversion_ok in Hc.
  destruct is_converted.
  - split; [tauto|discriminate].
  - destruct Hc as (-> & -> & -> & ->).
    split; [|auto]. split; [discriminate|]. intros (Hacc & _). done.
Qed.

Lemma post_generate_leads users :
  post (generate_leads cfg users) (Forall conversion_consistent).
Proof.
  unfold generate_leads.
  eapply post_mono; [apply post_for_range, post_new_lead|].
  now intros leads [Hl _].
Qed.

End LeadFacts.

(** A one-person sales team. *)
Definition sole_rep : User.t :=
  {| User.Id := "005Owner0000000001";
     User.Name := "Dana Smith";
     User.Email := "dana.smith@company.com";
     User.Username := "dsmith@company.com";
     User.Department := "Sales";
     User.UserRoleId := "00ERole00000000001";
     User.ManagerId := None;
     User.IsActive := true;
     User.CreatedDate := Calendar.ordinal 2022 1 1 |}.

(** Draws for the first lead: creation-date offset 0, [random()] = 0
    (converted), conversion delay, two identifiers of 15 characters each,
    then [random()] = 0.9 (no opportunity). *)
Definition tape_converted_without_opportunity : Tape :=
  [0; 0; 0] ++ repeat 0 30 ++ [900].

(** C6.  In every Lead returned by the generator, [IsConverted] is true
    exactly when the converted account id, contact id and date are all set,
    and all four conversion fields are null when it is false; and a
    converted lead may have no converted opportunity id. *)
Theorem lead_conversion_fields :
  (forall (G : Type) (RS : RandomSource G) (cfg : Config)
          (users : list User.t) (g g' : G) (leads : list Lead.t),
      generate_leads cfg users g = Ok (leads, g') ->
      Forall conversion_consistent leads) /\
  (exists leads t',
      generate_leads default_config [sole_rep]
                     tape_converted_without_opportunity = Ok (leads, t') /\
      Exists (fun l => Lead.IsConverted l = true /\
                       Lead.ConvertedOpportunityId l = None) leads).
Proof.
  split.
  - intros G RS cfg users g g' leads. apply post_generate_leads.
  - eexists _, _. split; [vm_compute; reflexivity|].
    apply Exists_cons_hd. split; reflexivity.
Qed.

Lemma lead_conversion_fields_witness :
  exists leads t',
    generate_leads default_config [sole_rep]
                   tape_converted_without_opportunity = Ok (leads, t') /\
    Forall conversion_consistent leads.
Proof.
  eexists _, _. split; [vm_compute; reflexivity|].
  apply (proj1 lead_conversion_fields Tape _ default_config [sole_rep]
               tape_converted_without_opportunity []).
  vm_compute; reflexivity.
Defined.

(** * Opportunities: stage, probability and the closed/won flags *)

(** The stage-to-percentage lookup given by the [STAGES] table. *)
Definition stage_probability (stage : string) : option Z :=
  snd <$> List.find (fun entry => String.eqb (fst entry) stage) STAGES.

Definition stage_consistent (o : Opportunity.t) : Prop :=
  (Opportunity.IsWon o = true -> Opportunity.IsClosed o = true) /\
  (Opportunity.IsClosed o = true ->
     Opportunity.StageName o = "Closed Won" \/
     Opportunity.StageName o = "Closed Lost") /\
  stage_probability (Opportunity.StageName o) = Some (Opportunity.Probability o).

Definition stage_ok (s : string * Z * bool * bool) : Prop :=
  let '(stage, prob, is_closed, is_won) := s in
  (is_won = true -> is_closed = true) /\
  (is_closed = true -> stage = "Closed Won" \/ stage = "Closed Lost") /\
  stage_probability stage = Some prob.

(** Case analysis on membership in a literal list. *)
Ltac elem_cases Hin :=
  repeat (apply elem_of_cons in Hin as [Hin|Hin]);
  [ inversion Hin; subst; clear Hin .. | apply elem_of_nil in Hin; contradiction ].

Section StageFacts.
Context {G : Type} `{RandomSource G}.

Lemma post_closed_stage :
  post (choice (slice 5 7 STAGES) ≫= fun '(stage, prob) =>
          (ret (stage, prob, true, String.eqb stage "Closed Won")
             : M G (string * Z * bool * bool)))
       stage_ok.
Proof.
  eapply post_bind; [apply post_choice|]. intros [stage prob] Hin.
  apply post_ret. vm_compute in Hin. elem_cases Hin; cbn; auto.
Qed.

Lemma post_open_stage (stages : list (string * Z)) :
  Forall (fun entry => stage_probability (fst entry) = Some (snd entry))
         stages ->
  post (choice stages ≫= fun '(stage, prob) =>
          (ret (stage, prob, false, false) : M G (string * Z * bool * bool)))
       stage_ok.
Proof.
  intros Hstages. eapply post_bind; [apply post_choice|].
  intros [stage prob] Hin. apply post_ret.
  rewrite Forall_forall in Hstages. specialize (Hstages _ Hin).
  cbn in *. repeat split; [discriminate..|assumption].
Qed.

Lemma post_draw_stage days_old : post (draw_stage days_old) stage_ok.
Proof.
  unfold draw_stage.
  destruct (180 <? days_old); [|destruct (90 <? days_old)].
  - eapply post_bind; [apply post_trivial|]. intros r _.
    destruct (Qltb r 0.8); [apply post_closed_stage|].
    apply post_open_stage. repeat constructor.
  - eapply post_bind; [apply post_trivial|]. intros r _.
    destruct (Qltb r 0.5); [apply post_closed_stage|].
    apply post_open_stage. repeat constructor.
  - apply post_open_stage. repeat constructor.
Qed.

Lemma post_large_deal_downgrade amount s :
  stage_ok s -> post (large_deal_downgrade amount s) stage_ok.
Proof.
  intros Hs. unfold large_deal_downgrade.
  destruct s as [[[stage prob] is_closed] is_won].
  destruct (is_closed && Qltb 100000 amount); [|now apply post_ret].
  eapply post_bind; [apply post_trivial|]. intros r _.
  destruct (Qltb r 0.3); [|now apply post_ret].
  apply post_ret. cbn. repeat split; [discriminate|auto].
Qed.

End StageFacts.

(** * Opportunities: line items *)

Definition sum_Q (l : list Q) : Q := foldr Qplus 0%Q l.

(** What the loop body makes of the amount [item_amount] allocated to a
    line. *)
Definition line_ok (opp_id : string) (product_prices : gmap string Q)
    (li : OpportunityLineItem.t) (item_amount : Q) : Prop :=
  OpportunityLineItem.OpportunityId li = opp_id /\
  OpportunityLineItem.UnitPrice li =
    default 10000%Q (product_prices !! OpportunityLineItem.Product2Id li) /\
  ~ (OpportunityLineItem.UnitPrice li == 0)%Q /\
  OpportunityLineItem.Quantity li =
    Z.max 1 (py_int (item_amount / OpportunityLineItem.UnitPrice li)) /\
  OpportunityLineItem.TotalPrice li =
    round2 (inject_Z (OpportunityLineItem.Quantity li)
            * OpportunityLineItem.UnitPrice li).

(** The line items of one opportunity, with the amounts allocated to them. *)
Definition lines_ok (product_prices : gmap string Q)
    (deal : Opportunity.t * list OpportunityLineItem.t) (amounts : list Q)
  : Prop :=
  Forall2 (line_ok (Opportunity.Id (fst deal)) product_prices)
          (snd deal) amounts /\
  Forall (Qle 0) amounts /\
  (snd deal <> [] -> sum_Q amounts == Opportunity.Amount (fst deal))%Q.

Definition deal_ok (product_prices : gmap string Q)
    (deal : Opportunity.t * list OpportunityLineItem.t) : Prop :=
  stage_consistent (fst deal) /\ exists amounts, lines_ok product_prices deal amounts.

Section LineItemFacts.
Context {G : Type} `{RandomSource G}.
Variable cfg : Config.

Lemma post_py_div a b :
  post (lift_res (py_div a b) : M G Q)
       (fun r => r = (a / b)%Q /\ ~ (b == 0)%Q).
Proof.
  apply post_lift_res. intros r. unfold py_div.
  destruct (Qeq_bool b 0) eqn:Hb; [discriminate|].
  intros Hr. inversion Hr; subst. split; [reflexivity|].
  now apply Qeq_bool_neq.
Qed.

Lemma post_new_line_item opp_id product_prices product item_amount :
  post (new_line_item opp_id product_prices product item_amount)
       (fun li => line_ok opp_id product_prices li item_amount).
Proof.
  unfold new_line_item. post_use post_py_div. destruct Hpost as [-> Hnz].
  post_skip. apply post_ret. unfold line_ok; simpl. auto.
Qed.

Lemma post_ret_bind {A B} (a : A) (k : A -> M G B) (Q : B -> Prop) :
  post (k a) Q -> post (ret a ≫= k) Q.
Proof. intros Hk. eapply post_bind; [apply (post_ret a (eq a)); reflexivity|]. now intros ? <-. Qed.

Lemma post_line_items_loop opp_id product_prices selected_products :
  forall remaining_amount,
    post (line_items_loop opp_id product_prices remaining_amount
                          selected_products)
         (fun items => exists amounts,
              Forall2 (line_ok opp_id product_prices) items amounts /\
              length amounts = length selected_products /\
              ((0 <= remaining_amount)%Q -> Forall (Qle 0) amounts) /\
              (selected_products <> [] ->
               sum_Q amounts == remaining_amount)%Q).
Proof.
  induction selected_products as [|product rest IH]; intros remaining; simpl.
  { apply post_ret. exists [].
    split; [constructor|]. split; [reflexivity|].
    split; [constructor|]. done. }
  destruct rest as [|next rest].
  - apply post_ret_bind.
    post_use post_new_line_item.
    post_use (IH remaining).
    destruct Hpost0 as (amounts & Hlines & Hlen & _).
    destruct amounts; [|discriminate]. inversion Hlines; subst.
    apply post_ret. exists [remaining].
    split; [|split; [|split]].
    + constructor; [assumption|constructor].
    + reflexivity.
    + intros Hrem. constructor; [assumption|constructor].
    + intros _. simpl. ring.
  - eapply post_bind.
    { eapply post_bind; [apply (post_uniform 0.2 0.5); lra|].
      intros u Hu.
      apply (post_ret _ (fun r => exists u, (0.2 <= u <= 0.5)%Q /\
               r = (round2 (remaining * u),
                    (remaining - round2 (remaining * u))%Q))).
      now exists u. }
    intros [item_amount remaining'] (u & Hu & Heq).
    inversion Heq; subst item_amount remaining'; clear Heq.
    post_use post_new_line_item.
    post_use (IH (remaining - round2 (remaining * u))%Q).
    destruct Hpost0 as (amounts & Hlines & Hlen & Hpos & Hsum).
    apply post_ret. exists (round2 (remaining * u) :: amounts).
    split; [|split; [|split]].
    + now constructor.
    + simpl. now rewrite Hlen.
    + intros Hrem.
      assert (0 <= remaining * u)%Q by (apply Qmult_le_0_compat; lra).
      pose proof (round2_nonneg _ H0) as Hitem.
      assert (round2 (remaining * u) <= remaining)%Q
        by (apply round2_fraction_le; [assumption|lra]).
      constructor; [assumption|]. apply Hpos. lra.
    + intros _. simpl. rewrite Hsum by discriminate. ring.
Qed.

End LineItemFacts.

(** * Opportunities: the generator as a whole *)

Section OpportunityFacts.
Context {G : Type} `{RandomSource G}.
Variable cfg : Config.

Lemma py_max_ge_l a b : (a <= py_max a b)%Q.
Proof.
  unfold py_max. destruct (Qltb a b) eqn:Hab; [|apply Qle_refl].
  apply Qltb_lt in Hab. lra.
Qed.

Lemma post_new_opportunity now accounts active_users products
      product_prices i :
  post (new_opportunity cfg now accounts active_users products
                        product_prices i)
       (deal_ok product_prices).
Proof.
  unfold new_opportunity. do 3 post_skip.
  post_use post_draw_stage.
  eapply post_bind; [apply post_large_deal_downgrade; exact Hpost|].
  intros [[[stage prob] is_closed] is_won] Hs.
  do 9 post_skip.
  post_use post_line_items_loop.
  destruct Hpost0 as (amounts & Hlines & Hlen & Hpos & Hsum).
  apply post_ret. split; [exact Hs|]. exists amounts.
  split; [exact Hlines|]. split.
  - apply Hpos. eapply Qle_trans; [|apply py_max_ge_l]. lra.
  - simpl. intros Hne. apply Hsum. intros ->.
    destruct amounts; [|discriminate]. inversion Hlines; subst. done.
Qed.

(** The two returned lists are the opportunities and, concatenated in the
    same order, their line items. *)
Lemma post_generate_opportunities now accounts users products
      pricebook_entries :
  post (generate_opportunities cfg now accounts users products
                               pricebook_entries)
       (fun r => exists deals,
            r = (map fst deals, concat (map snd deals)) /\
            Forall (deal_ok (price_lookup pricebook_entries)) deals).
Proof.
  unfold generate_opportunities.
  post_use (post_for_range (NUM_OPPORTUNITIES cfg)
              (new_opportunity cfg now accounts (active users) products
                               (price_lookup pricebook_entries))
              (deal_ok (price_lookup pricebook_entries))).
  { intros; apply post_new_opportunity. }
  apply post_ret. exists a. split; [reflexivity|]. apply Hpost.
Qed.

End OpportunityFacts.

(** C4.  Every Opportunity returned by the generator satisfies: [IsWon]
    implies [IsClosed]; [IsClosed] implies that the stage is "Closed Won" or
    "Closed Lost"; and [Probability] is the value the [STAGES] table gives
    for [StageName] (also after a large closed deal has been downgraded to
    "Closed Lost"). *)
Theorem opportunity_stage_consistent {G : Type} `{RandomSource G}
    (cfg : Config) (now : datetime) (accounts : list Account.t)
    (users : list User.t) (products : list Product.t)
    (pricebook_entries : list PricebookEntry.t) (g g' : G)
    (opportunities : list Opportunity.t)
    (line_items : list OpportunityLineItem.t) :
  generate_opportunities cfg now accounts users products pricebook_entries g
    = Ok ((opportunities, line_items), g') ->
  Forall stage_consistent opportunities.
Proof.
  intros Hrun.
  destruct (post_generate_opportunities cfg now accounts users products
              pricebook_entries g _ g' Hrun) as (deals & Heq & Hdeals).
  inversion Heq; subst. apply Forall_fmap.
  eapply Forall_impl; [exact Hdeals|]. now intros deal [Hs _].
Qed.

(** ** Line totals against the opportunity amount *)

Definition total_price_sum (items : list OpportunityLineItem.t) : Q :=
  sum_Q (map OpportunityLineItem.TotalPrice items).

(** The sum over the lines of the unit price plus half a cent. *)
Definition unit_price_slack (items : list OpportunityLineItem.t) : Q :=
  sum_Q (map (fun li => OpportunityLineItem.UnitPrice li + 0.005)%Q items).

(** The line items whose [OpportunityId] is the opportunity's [Id]. *)
Definition line_items_of (o : Opportunity.t)
    (items : list OpportunityLineItem.t) : list OpportunityLineItem.t :=
  filter (fun li => OpportunityLineItem.OpportunityId li = Opportunity.Id o)
         items.

Definition within_a_cent (a b : Q) : Prop := (Qabs (a - b) <= 0.01)%Q.

Lemma price_lookup_elem (pricebook_entries : list PricebookEntry.t)
      (id : string) (price : Q) :
  price_lookup pricebook_entries !! id = Some price ->
  exists pbe, pbe ∈ pricebook_entries /\ PricebookEntry.UnitPrice pbe = price.
Proof.
  unfold price_lookup.
  induction pricebook_entries as [|pbe entries IH] using rev_ind.
  - simpl. rewrite lookup_empty. discriminate.
  - rewrite foldl_app. simpl. rewrite lookup_insert.
    destruct (decide (PricebookEntry.Product2Id pbe = id)) as [Heq|Hne].
    + intros Hp. inversion Hp; subst. exists pbe. split; [|reflexivity].
      apply elem_of_app. right. left.
    + intros Hp. destruct (IH Hp) as (pbe' & Hin & Hprice).
      exists pbe'. split; [|assumption]. apply elem_of_app. now left.
Qed.

Lemma unit_price_positive (pricebook_entries : list PricebookEntry.t)
      (id : string) :
  Forall (fun pbe => (0 < PricebookEntry.UnitPrice pbe)%Q) pricebook_entries ->
  (0 < default 10000%Q (price_lookup pricebook_entries !! id))%Q.
Proof.
  intros Hpos. destruct (price_lookup pricebook_entries !! id) as [p|] eqn:Hp.
  - destruct (price_lookup_elem _ _ _ Hp) as (pbe & Hin & <-).
    rewrite Forall_forall in Hpos. now apply Hpos.
  - reflexivity.
Qed.

Lemma lines_total_near opp_id product_prices items amounts :
  (forall id, (0 < default 10000%Q (product_prices !! id))%Q) ->
  Forall2 (line_ok opp_id product_prices) items amounts ->
  Forall (Qle 0) amounts ->
  (sum_Q amounts - unit_price_slack items <= total_price_sum items
     <= sum_Q amounts + unit_price_slack items)%Q.
Proof.
  intros Hprice Hlines. unfold total_price_sum, unit_price_slack.
  induction Hlines as [|li a items amounts Hli _ IH]; intros Hpos; simpl.
  - lra.
  - inversion Hpos as [|? ? Ha Hrest]; subst. specialize (IH Hrest).
    destruct Hli as (_ & Hunit & _ & Hq & Ht).
    assert (Hp : (0 < OpportunityLineItem.UnitPrice li)%Q)
      by (rewrite Hunit; apply Hprice).
    pose proof (quantity_total_near a _ Ha Hp) as Hnear.
    rewrite <- Hq in Hnear.
    pose proof (round2_near (inject_Z (OpportunityLineItem.Quantity li)
                             * OpportunityLineItem.UnitPrice li)) as Hround.
    rewrite <- Ht in Hround. lra.
Qed.

(** C1 (as amended).  When every price-book price is positive, the returned
    opportunities and line items pair up, in order, into deals.  In each
    deal the lines are allocated non-negative amounts [item_amount]; every
    line belongs to the opportunity and has
    [Quantity = max(1, int(item_amount / UnitPrice))] and
    [TotalPrice = round(Quantity * UnitPrice, 2)].  When the deal has lines,
    the allocated amounts add up to the opportunity's [Amount], while the
    sum of the [TotalPrice] fields differs from [Amount] by at most the sum
    of the lines' unit prices (plus half a cent of rounding per line). *)
Theorem line_totals_near_amount {G : Type} `{RandomSource G}
    (cfg : Config) (now : datetime) (accounts : list Account.t)
    (users : list User.t) (products : list Product.t)
    (pricebook_entries : list PricebookEntry.t) (g g' : G)
    (opportunities : list Opportunity.t)
    (line_items : list OpportunityLineItem.t) :
  Forall (fun pbe => (0 < PricebookEntry.UnitPrice pbe)%Q) pricebook_entries ->
  generate_opportunities cfg now accounts users products pricebook_entries g
    = Ok ((opportunities, line_items), g') ->
  exists deals,
    opportunities = map fst deals /\
    line_items = concat (map snd deals) /\
    Forall (fun deal : Opportunity.t * list OpportunityLineItem.t =>
              exists amounts,
                Forall2 (fun li item_amount =>
                           (0 <= item_amount)%Q /\
                           OpportunityLineItem.OpportunityId li
                             = Opportunity.Id (fst deal) /\
                           OpportunityLineItem.Quantity li
                             = Z.max 1
                                 (py_int (item_amount
                                          / OpportunityLineItem.UnitPrice li)) /\
                           OpportunityLineItem.TotalPrice li
                             = round2 (inject_Z (OpportunityLineItem.Quantity li)
                                       * OpportunityLineItem.UnitPrice li))
                        (snd deal) amounts /\
                (snd deal <> [] ->
                 (sum_Q amounts == Opportunity.Amount (fst deal))%Q /\
                 (Qabs (total_price_sum (snd deal)
                        - Opportunity.Amount (fst deal))
                    <= unit_price_slack (snd deal))%Q))
           deals.
Proof.
  intros Hprices Hrun.
  destruct (post_generate_opportunities cfg now accounts users products
              pricebook_entries g _ g' Hrun) as (deals & Heq & Hdeals).
  inversion Heq; subst. exists deals. split; [reflexivity|].
  split; [reflexivity|].
  eapply Forall_impl; [exact Hdeals|].
  intros deal (_ & amounts & Hlines & Hpos & Hsum).
  exists amounts. split.
  - clear - Hlines Hpos. induction Hlines as [|li a items amounts Hli _ IH].
    + constructor.
    + inversion Hpos; subst. constructor; [|now apply IH].
      destruct Hli as (Hopp & _ & _ & Hq & Ht). auto.
  - intros Hne. specialize (Hsum Hne). split; [exact Hsum|].
    pose proof (lines_total_near _ _ _ _
                  (fun id => unit_price_positive pricebook_entries id Hprices)
                  Hlines Hpos) as Hnear.
    apply Qabs_Qle_condition. lra.
Qed.

(** C7 (as amended).  The returned opportunities and line items pair up, in
    order, into deals; in each deal the lines are allocated non-negative
    amounts which, when there are lines, add up to the opportunity's
    [Amount], and each line has the unit price of its product in the price
    book (10000 when the product has no entry) and
    [Quantity = max(1, int(item_amount / unit_price))], the quotient being
    truncated, not rounded; in particular [Quantity >= 1]. *)
Theorem line_quantity_truncates {G : Type} `{RandomSource G}
    (cfg : Config) (now : datetime) (accounts : list Account.t)
    (users : list User.t) (products : list Product.t)
    (pricebook_entries : list PricebookEntry.t) (g g' : G)
    (opportunities : list Opportunity.t)
    (line_items : list OpportunityLineItem.t) :
  generate_opportunities cfg now accounts users products pricebook_entries g
    = Ok ((opportunities, line_items), g') ->
  exists deals,
    opportunities = map fst deals /\
    line_items = concat (map snd deals) /\
    Forall (fun deal : Opportunity.t * list OpportunityLineItem.t =>
              exists amounts,
                Forall2 (fun li item_amount =>
                           (0 <= item_amount)%Q /\
                           OpportunityLineItem.UnitPrice li
                             = default 10000%Q
                                 (price_lookup pricebook_entries
                                    !! OpportunityLineItem.Product2Id li) /\
                           OpportunityLineItem.Quantity li
                             = Z.max 1
                                 (py_int (item_amount
                                          / OpportunityLineItem.UnitPrice li)) /\
                           1 <= OpportunityLineItem.Quantity li)
                        (snd deal) amounts /\
                (snd deal <> [] ->
                 sum_Q amounts == Opportunity.Amount (fst deal))%Q)
           deals.
Proof.
  intros Hrun.
  destruct (post_generate_opportunities cfg now accounts users products
              pricebook_entries g _ g' Hrun) as (deals & Heq & Hdeals).
  inversion Heq; subst. exists deals. split; [reflexivity|].
  split; [reflexivity|].
  eapply Forall_impl; [exact Hdeals|].
  intros deal (_ & amounts & Hlines & Hpos & Hsum).
  exists amounts. split; [|exact Hsum].
  clear Hsum. induction Hlines as [|li a items amounts Hli _ IH].
  - constructor.
  - inversion Hpos; subst. constructor; [|now apply IH].
    destruct Hli as (_ & Hunit & _ & Hq & _).
    split; [assumption|]. split; [assumption|]. split; [assumption|].
    rewrite Hq. lia.
Qed.

(** * Concrete runs of the opportunity generator *)

(** The ten products of the source's catalogue with their price-book
    entries, under fixed identifiers. *)
Definition catalog_entry (n : nat) (entry : string * string * string * Z)
  : Product.t * PricebookEntry.t :=
  let '(name, family, code, base_price) := entry in
  let suffix := String (ascii_of_nat (48 + n)) EmptyString in
  ({| Product.Id := "01tCatalog0000000" +:+ suffix;
      Product.Name := name;
      Product.ProductCode := code;
      Product.Family := family;
      Product.Description := name +:+ " - " +:+ family +:+ " offering";
      Product.IsActive := true;
      Product.CreatedDate := START_DATE default_config |},
   {| PricebookEntry.Id := "01uCatalog0000000" +:+ suffix;
      PricebookEntry.Product2Id := "01tCatalog0000000" +:+ suffix;
      PricebookEntry.UnitPrice := inject_Z base_price;
      PricebookEntry.IsActive := true |}).

Definition catalog : list (Product.t * PricebookEntry.t) :=
  imap catalog_entry product_names.
Definition catalog_products : list Product.t := map fst catalog.
Definition catalog_prices : list PricebookEntry.t := map snd catalog.

(** Fifteen draws of [random()] spelling one identifier. *)
Definition id_draws : list Z :=
  [17; 33; 49; 65; 81; 97; 113; 129; 145; 161; 177; 193; 209; 225; 241].

(** Draws for the first opportunity: account 0; created 100 days after
    [START_DATE]; log-normal draw 3000 (amount 3000 * 1.05 = 3150);
    [random()] = 0.5 (closed); stage 0 of the two closed ones; close delay;
    identifier; name suffix; type; lead source; owner; modification delay;
    [num_products] = 1; sample position 7 ("Admin Training", 2000);
    line-item identifier. *)
Definition tape_small_deal : Tape :=
  [0; 100; 3000; 500; 0; 15] ++ id_draws ++ [1; 500; 300; 0; 9; 0; 7]
    ++ id_draws.

(** Draws for the first opportunity: account 0; created 700 days after
    [START_DATE] (45 days before [END_DATE]: an open deal); log-normal draw;
    stage; close-date offset 10 days after the clock reading; [random()] =
    0.5 (no move to the quarter end); then as in [tape_small_deal]. *)
Definition tape_open_deal : Tape :=
  [0; 700; 3000; 2; 10; 500] ++ id_draws ++ [1; 500; 300; 0; 9; 0; 7]
    ++ id_draws.

Definition run_date : datetime := Calendar.ordinal 2025 1 20.

(** C1 (as stated) fails: the first opportunity of this run has
    [Amount = 3150.00] and a single line item, of quantity 1 at unit price
    2000, so the [TotalPrice] of its line items sums to 2000. *)
Lemma line_totals_counterexample :
  exists o opportunities line_items t',
    generate_opportunities default_config run_date [acme] [sole_rep]
        catalog_products catalog_prices tape_small_deal
      = Ok ((o :: opportunities, line_items), t') /\
    line_items_of o line_items <> [] /\
    (Opportunity.Amount o == 3150)%Q /\
    (total_price_sum (line_items_of o line_items) == 2000)%Q /\
    ~ within_a_cent (total_price_sum (line_items_of o line_items))
                    (Opportunity.Amount o).
Proof.
  eexists _, _, _, _. split; [vm_compute; reflexivity|].
  split; [vm_compute; discriminate|].
  split; [vm_compute; reflexivity|].
  split; [vm_compute; reflexivity|].
  intros Hc. vm_compute in Hc. apply Hc. reflexivity.
Qed.

Lemma line_totals_near_amount_witness :
  exists deals opportunities line_items t',
    generate_opportunities default_config run_date [acme] [sole_rep]
        catalog_products catalog_prices tape_small_deal
      = Ok ((opportunities, line_items), t') /\
    opportunities = map fst deals /\
    line_items = concat (map snd deals) /\
    Forall (fun deal : Opportunity.t * list OpportunityLineItem.t =>
              exists amounts,
                Forall2 (fun li item_amount =>
                           (0 <= item_amount)%Q /\
                           OpportunityLineItem.OpportunityId li
                             = Opportunity.Id (fst deal) /\
                           OpportunityLineItem.Quantity li
                             = Z.max 1
                                 (py_int (item_amount
                                          / OpportunityLineItem.UnitPrice li)) /\
                           OpportunityLineItem.TotalPrice li
                             = round2 (inject_Z (OpportunityLineItem.Quantity li)
                                       * OpportunityLineItem.UnitPrice li))
                        (snd deal) amounts /\
                (snd deal <> [] ->
                 (sum_Q amounts == Opportunity.Amount (fst deal))%Q /\
                 (Qabs (total_price_sum (snd deal)
                        - Opportunity.Amount (fst deal))
                    <= unit_price_slack (snd deal))%Q))
           deals.
Proof.
  assert (Hprices : Forall (fun pbe => (0 < PricebookEntry.UnitPrice pbe)%Q)
                           catalog_prices)
    by (repeat constructor).
  destruct (generate_opportunities default_config run_date [acme] [sole_rep]
              catalog_products catalog_prices tape_small_deal)
    as [[[opportunities line_items] t']|e] eqn:Hrun;
    [|vm_compute in Hrun; discriminate].
  destruct (line_totals_near_amount default_config run_date [acme] [sole_rep]
              catalog_products catalog_prices tape_small_deal t'
              opportunities line_items Hprices Hrun) as (deals & Hd).
  exists deals, opportunities, line_items, t'. split; [reflexivity|exact Hd].
Defined.

Lemma opportunity_stage_consistent_witness :
  exists opportunities line_items t',
    generate_opportunities default_config run_date [acme] [sole_rep]
        catalog_products catalog_prices tape_small_deal
      = Ok ((opportunities, line_items), t') /\
    Forall stage_consistent opportunities.
Proof.
  destruct (generate_opportunities default_config run_date [acme] [sole_rep]
              catalog_products catalog_prices tape_small_deal)
    as [[[opportunities line_items] t']|e] eqn:Hrun;
    [|vm_compute in Hrun; discriminate].
  exists opportunities, line_items, t'. split; [reflexivity|].
  exact (opportunity_stage_consistent default_config run_date [acme]
           [sole_rep] catalog_products catalog_prices tape_small_deal t'
           opportunities line_items Hrun).
Defined.

(** C7 (as stated) fails: the first opportunity of this run has
    [Amount = 3150.00] and one line item, which is therefore allocated the
    whole amount, at unit price 2000.  [round(3150 / 2000)] is 2, but the
    line's [Quantity] is [int(3150 / 2000)] = 1. *)
Lemma line_quantity_counterexample :
  exists o li opportunities line_items t',
    generate_opportunities default_config run_date [acme] [sole_rep]
        catalog_products catalog_prices tape_small_deal
      = Ok ((o :: opportunities, li :: line_items), t') /\
    line_items_of o (li :: line_items) = [li] /\
    (Opportunity.Amount o == 3150)%Q /\
    (OpportunityLineItem.UnitPrice li == 2000)%Q /\
    Z.max 1 (round_half_even (Opportunity.Amount o
                              / OpportunityLineItem.UnitPrice li)) = 2 /\
    OpportunityLineItem.Quantity li = 1 /\
    OpportunityLineItem.Quantity li
      <> Z.max 1 (round_half_even (Opportunity.Amount o
                                   / OpportunityLineItem.UnitPrice li)).
Proof.
  eexists _, _, _, _, _. split; [vm_compute; reflexivity|].
  split; [vm_compute; reflexivity|].
  split; [vm_compute; reflexivity|].
  split; [vm_compute; reflexivity|].
  split; [vm_compute; reflexivity|].
  split; [vm_compute; reflexivity|].
  vm_compute. discriminate.
Qed.

Lemma line_quantity_truncates_witness :
  exists deals opportunities line_items t',
    generate_opportunities default_config run_date [acme] [sole_rep]
        catalog_products catalog_prices tape_small_deal
      = Ok ((opportunities, line_items), t') /\
    opportunities = map fst deals /\
    line_items = concat (map snd deals) /\
    Forall (fun deal : Opportunity.t * list OpportunityLineItem.t =>
              exists amounts,
                Forall2 (fun li item_amount =>
                           (0 <= item_amount)%Q /\
                           OpportunityLineItem.UnitPrice li
                             = default 10000%Q
                                 (price_lookup catalog_prices
                                    !! OpportunityLineItem.Product2Id li) /\
                           OpportunityLineItem.Quantity li
                             = Z.max 1
                                 (py_int (item_amount
                                          / OpportunityLineItem.UnitPrice li)) /\
                           1 <= OpportunityLineItem.Quantity li)
                        (snd deal) amounts /\
                (snd deal <> [] ->
                 sum_Q amounts == Opportunity.Amount (fst deal))%Q)
           deals.
Proof.
  destruct (generate_opportunities default_config run_date [acme] [sole_rep]
              catalog_products catalog_prices tape_small_deal)
    as [[[opportunities line_items] t']|e] eqn:Hrun;
    [|vm_compute in Hrun; discriminate].
  destruct (line_quantity_truncates default_config run_date [acme] [sole_rep]
              catalog_products catalog_prices tape_small_deal t'
              opportunities line_items Hrun) as (deals & Hd).
  exists deals, opportunities, line_items, t'. split; [reflexivity|exact Hd].
Defined.

(** * Reproducibility and the clock *)

(** C2 fails on the code: the close date of an open opportunity is drawn
    from a range that starts at [datetime.now()].  With the same random
    draws, configuration and inputs, a run on 2025-01-20 and a run on
    2025-07-01 return different opportunities: the first one, an open deal,
    closes on 2025-01-30 in one run and on 2025-07-11 in the other. *)
Theorem generate_opportunities_reads_clock :
  exists o1 rest1 items1 t1 o2 rest2 items2 t2,
    generate_opportunities default_config (Calendar.ordinal 2025 1 20)
        [acme] [sole_rep] catalog_products catalog_prices tape_open_deal
      = Ok ((o1 :: rest1, items1), t1) /\
    generate_opportunities default_config (Calendar.ordinal 2025 7 1)
        [acme] [sole_rep] catalog_products catalog_prices tape_open_deal
      = Ok ((o2 :: rest2, items2), t2) /\
    Opportunity.IsClosed o1 = false /\
    Opportunity.CloseDate o1 = Calendar.ordinal 2025 1 30 /\
    Opportunity.CloseDate o2 = Calendar.ordinal 2025 7 11 /\
    o1 :: rest1 <> o2 :: rest2.
Proof.
  eexists _, _, _, _, _, _, _, _.
  split; [vm_compute; reflexivity|].
  split; [vm_compute; reflexivity|].
  split; [reflexivity|]. split; [reflexivity|]. split; [reflexivity|].
  intros Heq.
  apply (f_equal (fun l => Opportunity.CloseDate <$> head l)) in Heq.
  vm_compute in Heq. discriminate.
Qed.

(** * Activities: the contact of a task belongs to the task's account *)

(** The contact named by [WhoId], when there is one, is a contact of the
    account named by [WhatId]. *)
Definition who_belongs_to_what (contacts : list Contact.t) (t : Task.t) : Prop :=
  forall who, Task.WhoId t = Some who ->
    exists c, c ∈ contacts /\ Contact.Id c = who /\
              Contact.AccountId c = Task.WhatId t.

Section ActivityFacts.
Context {G : Type} `{RandomSource G}.
Variable cfg : Config.

Lemma group_by_lookup {A} (key : A -> string) (l : list A) k xs :
  group_by key l !! k = Some xs ->
  Forall (fun x => x ∈ l /\ key x = k) xs.
Proof.
  unfold group_by. revert k xs.
  induction l as [|y l IH] using rev_ind; intros k xs.
  - simpl. rewrite lookup_empty. discriminate.
  - rewrite foldl_app. simpl.
    assert (Hweak : forall zs, Forall (fun x => x ∈ l /\ key x = k) zs ->
                               Forall (fun x => x ∈ l ++ [y] /\ key x = k) zs).
    { intros zs Hzs. eapply Forall_impl; [exact Hzs|].
      intros x [Hx Hk]. split; [|assumption]. apply elem_of_app. now left. }
    assert (Hy : y ∈ l ++ [y]) by (apply elem_of_app; right; left).
    destruct (foldl _ ∅ l !! key y) as [ys|] eqn:Hys.
    + rewrite lookup_insert. destruct (decide (key y = k)) as [<-|Hne].
      * intros Hxs. inversion Hxs; subst. apply Forall_app. split.
        -- apply Hweak. now apply IH.
        -- constructor; [now split|constructor].
      * intros Hxs. apply Hweak. now apply IH.
    + rewrite lookup_insert. destruct (decide (key y = k)) as [<-|Hne].
      * intros Hxs. inversion Hxs; subst. constructor; [now split|constructor].
      * intros Hxs. apply Hweak. now apply IH.
Qed.

Lemma post_new_task accounts contacts opps_by_account active_users i :
  post (new_task cfg accounts (group_by Contact.AccountId contacts)
                 opps_by_account active_users i)
       (who_belongs_to_what contacts).
Proof.
  unfold new_task. post_skip.
  eapply post_bind; [apply post_trivial|]. intros account _.
  eapply post_bind.
  { instantiate (1 := fun contact =>
      forall c, contact = Some c ->
                c ∈ contacts /\ Contact.AccountId c = Account.Id account).
    destruct (group_by Contact.AccountId contacts !! Account.Id account)
      as [cs|] eqn:Hcs.
    - post_use (post_choice cs). apply post_ret.
      intros c Hc. inversion Hc; subst.
      pose proof (group_by_lookup _ _ _ _ Hcs) as Hall.
      rewrite Forall_forall in Hall. now apply Hall.
    - apply post_ret. discriminate. }
  intros contact Hcontact.
  repeat post_skip. apply post_ret.
  intros who Hwho. simpl in Hwho.
  destruct contact as [c|]; [|discriminate]. inversion Hwho; subst.
  destruct (Hcontact c eq_refl) as [Hin Hacc].
  exists c. simpl. auto.
Qed.

Lemma post_generate_activities accounts contacts opportunities users :
  post (generate_activities cfg accounts contacts opportunities users)
       (Forall (who_belongs_to_what contacts)).
Proof.
  unfold generate_activities.
  eapply post_mono; [apply post_for_range; intros; apply post_new_task|].
  now intros tasks [Ht _].
Qed.

End ActivityFacts.

(** C10.  For every Task returned by the activity generator whose [WhoId]
    is set, [WhoId] is the [Id] of one of the given contacts whose
    [AccountId] is the task's [WhatId]. *)
Theorem task_contact_in_task_account {G : Type} `{RandomSource G}
    (cfg : Config) (accounts : list Account.t) (contacts : list Contact.t)
    (opportunities : list Opportunity.t) (users : list User.t) (g g' : G)
    (tasks : list Task.t) :
  generate_activities cfg accounts contacts opportunities users g
    = Ok (tasks, g') ->
  Forall (who_belongs_to_what contacts) tasks.
Proof. apply post_generate_activities. Qed.

(** * Campaign members: sampling never exceeds the pool *)

(** The member count derived for a campaign before it is capped: the first
    argument of [min] in the branch of the campaign's type. *)
Definition target_members (campaign_type : string) (base_members : Z)
  : Res Z :=
  if String.eqb campaign_type "Email" then Ok base_members
  else if String.eqb campaign_type "Webinar" then
    int_of_scaled base_members 0.5
  else int_of_scaled base_members 0.3.

(** The base count of a campaign: [NumberSent] when it is completed,
    otherwise [int(NumberSent * u)] for a share [u] between 0.3 and 0.7. *)
Definition base_members_ok (campaign : Campaign.t) (base_members : Z) : Prop :=
  if String.eqb (Campaign.Status campaign) "Completed"
  then base_members = Campaign.NumberSent campaign
  else exists u, (0.3 <= u <= 0.7)%Q /\
         base_members = py_int (inject_Z (Campaign.NumberSent campaign) * u).

(** A campaign whose member count can be derived: [NumberSent] is not
    negative, and small enough for a [float] unless the campaign is a
    completed e-mail campaign, whose count is never multiplied by one. *)
Definition countable (campaign : Campaign.t) : Prop :=
  0 <= Campaign.NumberSent campaign /\
  (Campaign.NumberSent campaign < FLOAT_INT_LIMIT \/
   (Campaign.Status campaign = "Completed" /\
    Campaign.Type_ campaign = "Email")).

(** [xs] holds [k] items of [population], taken at distinct positions. *)
Definition picked {A} (population : list A) (k : Z) (xs : list A) : Prop :=
  Z.of_nat (length xs) = k /\
  exists idxs,
    NoDup idxs /\ Forall2 (fun i x => population !! i = Some x) idxs xs.

Definition member_of_contact (campaign : Campaign.t) (contact : Contact.t)
    (m : CampaignMember.t) : Prop :=
  CampaignMember.CampaignId m = Campaign.Id campaign /\
  CampaignMember.ContactId m = Some (Contact.Id contact) /\
  CampaignMember.LeadId m = None.

Definition member_of_lead (campaign : Campaign.t) (lead : Lead.t)
    (m : CampaignMember.t) : Prop :=
  CampaignMember.CampaignId m = Campaign.Id campaign /\
  CampaignMember.LeadId m = Some (Lead.Id lead) /\
  CampaignMember.ContactId m = None.

(** The members returned for one campaign.  The count requested,
    [num_members], is the derived target cut to the pool size; 70% of it
    (truncated) is asked of the contacts and the rest of the unconverted
    leads, each request cut again to the size of its own list; the members
    are one per person picked, the contacts first. *)
Definition members_capped (contacts : list Contact.t)
    (unconverted_leads : list Lead.t) (campaign : Campaign.t)
    (members : list CampaignMember.t) : Prop :=
  let pool :=
    Z.of_nat (length contacts) + Z.of_nat (length unconverted_leads) in
  exists base_members target num_members selected_contacts selected_leads
         contact_members lead_members,
    base_members_ok campaign base_members /\
    target_members (Campaign.Type_ campaign) base_members = Ok target /\
    capped_members (Campaign.Type_ campaign) base_members pool
      = Ok num_members /\
    (pool < target -> num_members = pool) /\
    (target <= pool -> num_members = target) /\
    let num_contacts := py_int (inject_Z num_members * 0.70) in
    let num_leads := num_members - num_contacts in
    picked contacts (Z.min num_contacts (Z.of_nat (length contacts)))
           selected_contacts /\
    picked unconverted_leads
           (Z.min num_leads (Z.of_nat (length unconverted_leads)))
           selected_leads /\
    Forall2 (member_of_contact campaign) selected_contacts contact_members /\
    Forall2 (member_of_lead campaign) selected_leads lead_members /\
    members = contact_members ++ lead_members /\
    Z.of_nat (length members) <= num_members.

Lemma int_of_scaled_ok n x :
  0 <= n < FLOAT_INT_LIMIT ->
  int_of_scaled n x = Ok (py_int (inject_Z n * x)).
Proof.
  intros Hn. unfold int_of_scaled, float_of_int.
  rewrite Z.abs_eq by lia.
  destruct (Z.ltb_spec n FLOAT_INT_LIMIT); [reflexivity|lia].
Qed.

Lemma capped_members_min campaign_type base_members pool :
  capped_members campaign_type base_members pool
  = match target_members campaign_type base_members with
    | Ok target => Ok (Z.min target pool)
    | Raise e => Raise e
    end.
Proof.
  unfold capped_members, target_members.
  destruct (String.eqb campaign_type "Email"); [reflexivity|].
  now destruct (String.eqb campaign_type "Webinar").
Qed.

Lemma target_members_ok campaign_type base_members :
  0 <= base_members ->
  base_members < FLOAT_INT_LIMIT \/ campaign_type = "Email" ->
  exists target,
    target_members campaign_type base_members = Ok target /\
    0 <= target <= base_members.
Proof.
  intros Hb Hfits. unfold target_members.
  destruct (String.eqb_spec campaign_type "Email") as [_|Hne].
  { exists base_members. split; [reflexivity|lia]. }
  destruct Hfits as [Hfits|Hemail]; [|contradiction].
  destruct (String.eqb campaign_type "Webinar");
    rewrite int_of_scaled_ok by lia;
    (eexists; split; [reflexivity|]; apply py_int_scaled_le; [lia|lra]).
Qed.

Section SamplingFacts.
Context {G : Type} `{RandomSource G}.

Lemma succeeds_Ok_bind {A B} (a : A) (k : A -> M G B) :
  succeeds (k a) -> succeeds (lift_res (Ok a) ≫= k).
Proof. intros Hk g. exact (Hk g). Qed.

Lemma post_lift_res_eq {A} (r : Res A) :
  post (lift_res r : M G A) (fun a => r = Ok a).
Proof. apply post_lift_res. auto. Qed.

Lemma post_index_lookup {A} (l : list A) i :
  post (index (G:=G) l i) (fun x => l !! i = Some x).
Proof.
  unfold index. destruct (l !! i) as [x|]; [|apply post_raise].
  now apply post_ret.
Qed.

Lemma post_sample_picked {A} (l : list A) k :
  post (sample l k) (fun xs => picked l k xs /\ 0 <= k).
Proof.
  unfold sample.
  destruct ((k <? 0) || (Z.of_nat (length l) <? k)) eqn:Hk; [apply post_raise|].
  apply orb_false_iff in Hk as [Hk1 Hk2]. apply Z.ltb_ge in Hk1, Hk2.
  eapply post_bind.
  - apply (post_lift _ (fun idxs => length idxs = Z.to_nat k /\ NoDup idxs)).
    intros g.
    destruct (rs_sample_spec (length l) (Z.to_nat k) g) as (? & ? & _);
      [lia|]. auto.
  - intros idxs [Hlen Hnodup] g xs g' Hr.
    assert (Hpick : Forall2 (fun i x => l !! i = Some x) idxs xs).
    { eapply post_mapM; [|exact Hr]. intros; apply post_index_lookup. }
    split; [|assumption]. split; [|now exists idxs].
    rewrite <- (Forall2_length _ _ _ Hpick), Hlen. lia.
Qed.

Lemma succeeds_draw_response rate : succeeds (draw_response rate).
Proof.
  unfold draw_response. succ_skip succeeds_random.
  eapply succeeds_bind; [|apply post_trivial|intros; apply succeeds_ret].
  destruct (Qltb a rate); [|apply succeeds_ret].
  apply succeeds_choice. discriminate.
Qed.

Lemma succeeds_contact_member campaign contact :
  succeeds (contact_member campaign contact).
Proof.
  unfold contact_member.
  eapply succeeds_bind; [apply succeeds_draw_response|apply post_trivial|].
  intros [has_responded status] _.
  succ_skip succeeds_generate_sf_id.
  succ_skip succeeds_randint; [lia|]. apply succeeds_ret.
Qed.

Lemma succeeds_lead_member campaign lead :
  succeeds (lead_member campaign lead).
Proof.
  unfold lead_member.
  eapply succeeds_bind; [apply succeeds_draw_response|apply post_trivial|].
  intros [has_responded status] _.
  succ_skip succeeds_generate_sf_id.
  succ_skip succeeds_randint; [lia|]. apply succeeds_ret.
Qed.

Lemma post_member_of_contact campaign contact :
  post (contact_member campaign contact) (member_of_contact campaign contact).
Proof.
  unfold contact_member.
  eapply post_bind; [apply post_trivial|]. intros [has_responded status] _.
  do 2 post_skip. apply post_ret. now repeat split.
Qed.

Lemma post_member_of_lead campaign lead :
  post (lead_member campaign lead) (member_of_lead campaign lead).
Proof.
  unfold lead_member.
  eapply post_bind; [apply post_trivial|]. intros [has_responded status] _.
  do 2 post_skip. apply post_ret. now repeat split.
Qed.

Lemma succeeds_base_members campaign :
  countable campaign -> succeeds (base_members_of campaign).
Proof.
  intros [Hsent Hfits]. unfold base_members_of.
  destruct (String.eqb_spec (Campaign.Status campaign) "Completed")
    as [_|Hne]; [apply succeeds_ret|].
  destruct Hfits as [Hfits|[Hdone _]]; [|contradiction].
  succ_skip succeeds_uniform. rewrite int_of_scaled_ok by lia.
  apply succeeds_ret.
Qed.

Lemma post_base_members campaign :
  countable campaign ->
  post (base_members_of campaign)
       (fun base_members =>
          base_members_ok campaign base_members /\
          0 <= base_members /\
          (base_members < FLOAT_INT_LIMIT \/
           Campaign.Type_ campaign = "Email")).
Proof.
  intros [Hsent Hfits]. unfold base_members_of, base_members_ok.
  destruct (String.eqb_spec (Campaign.Status campaign) "Completed")
    as [_|Hne].
  { apply post_ret. split; [reflexivity|]. split; [lia|]. tauto. }
  destruct Hfits as [Hfits|[Hdone _]]; [|contradiction].
  post_use (post_uniform 0.3 0.7); [lra|].
  rewrite int_of_scaled_ok by lia.
  apply post_lift_res. intros base_members Hb. inversion Hb; subst.
  split; [now exists a|].
  pose proof (py_int_scaled_le (Campaign.NumberSent campaign) a Hsent)
    as Hrange.
  assert (Hshare : (0 <= a <= 1)%Q) by lra. specialize (Hrange Hshare). lia.
Qed.

(** What the generator computes between the base count and the two
    sampling requests. *)
Lemma member_counts_ok campaign_type base_members pool :
  0 <= base_members ->
  base_members < FLOAT_INT_LIMIT \/ campaign_type = "Email" ->
  0 <= pool < FLOAT_INT_LIMIT ->
  exists target,
    target_members campaign_type base_members = Ok target /\
    capped_members campaign_type base_members pool = Ok (Z.min target pool) /\
    int_of_scaled (Z.min target pool) 0.70
      = Ok (py_int (inject_Z (Z.min target pool) * 0.70)) /\
    0 <= py_int (inject_Z (Z.min target pool) * 0.70) <= Z.min target pool.
Proof.
  intros Hb Hfits Hpool.
  destruct (target_members_ok campaign_type base_members Hb Hfits)
    as (target & Ht & Hrange).
  exists target. split; [exact Ht|]. split.
  { rewrite capped_members_min, Ht. reflexivity. }
  split; [apply int_of_scaled_ok; lia|].
  apply py_int_scaled_le; [lia|lra].
Qed.

Lemma succeeds_members_of_campaign contacts unconverted_leads campaign :
  Z.of_nat (length contacts) + Z.of_nat (length unconverted_leads)
    < FLOAT_INT_LIMIT ->
  countable campaign ->
  succeeds (members_of_campaign contacts unconverted_leads campaign).
Proof.
  intros Hpool Hsent. unfold members_of_campaign.
  succ_use (succeeds_base_members campaign Hsent)
           (post_base_members campaign Hsent).
  destruct Hpost as (_ & Hb & Hfits). cbv beta zeta.
  destruct (member_counts_ok (Campaign.Type_ campaign) a
              (Z.of_nat (length contacts)
               + Z.of_nat (length unconverted_leads)))
    as (target & _ & Hcap & Hnc & Hrange); [lia|exact Hfits|lia|].
  rewrite Hcap. apply succeeds_Ok_bind.
  rewrite Hnc. apply succeeds_Ok_bind.
  succ_skip succeeds_sample; [lia|].
  succ_skip (succeeds_mapM (contact_member campaign)).
  { intros; apply succeeds_contact_member. }
  succ_skip succeeds_sample; [lia|].
  succ_skip (succeeds_mapM (lead_member campaign)).
  { intros; apply succeeds_lead_member. }
  apply succeeds_ret.
Qed.

Lemma post_members_capped contacts unconverted_leads campaign :
  Z.of_nat (length contacts) + Z.of_nat (length unconverted_leads)
    < FLOAT_INT_LIMIT ->
  countable campaign ->
  post (members_of_campaign contacts unconverted_leads campaign)
       (members_capped contacts unconverted_leads campaign).
Proof.
  intros Hpool Hsent. unfold members_of_campaign.
  eapply post_bind; [apply (post_base_members campaign Hsent)|].
  intros base_members (Hbase & Hb & Hfits). cbv beta zeta.
  set (pool := Z.of_nat (length contacts)
               + Z.of_nat (length unconverted_leads)) in *.
  destruct (member_counts_ok (Campaign.Type_ campaign) base_members pool)
    as (target & Ht & Hcap & Hnc & Hrange);
    [lia|exact Hfits|unfold pool in *; lia|].
  eapply post_bind; [apply post_lift_res_eq|].
  intros num_members Hnum. cbv beta in Hnum.
  rewrite Hcap in Hnum. inversion Hnum; subst num_members; clear Hnum.
  eapply post_bind; [apply post_lift_res_eq|].
  intros num_contacts Hnum. cbv beta in Hnum.
  rewrite Hnc in Hnum. inversion Hnum; subst num_contacts; clear Hnum.
  eapply post_bind; [apply post_sample_picked|].
  intros selected_contacts [Hsc _].
  eapply post_bind;
    [apply (post_mapM (contact_member campaign) (member_of_contact campaign));
     intros; apply post_member_of_contact|].
  intros contact_members Hcm.
  eapply post_bind; [apply post_sample_picked|].
  intros selected_leads [Hsl _].
  eapply post_bind;
    [apply (post_mapM (lead_member campaign) (member_of_lead campaign));
     intros; apply post_member_of_lead|].
  intros lead_members Hlm.
  apply post_ret. unfold members_capped. fold pool.
  exists base_members, target, (Z.min target pool), selected_contacts,
         selected_leads, contact_members, lead_members.
  split; [exact Hbase|]. split; [exact Ht|]. split; [exact Hcap|].
  split; [lia|]. split; [lia|].
  split; [exact Hsc|]. split; [exact Hsl|].
  split; [exact Hcm|]. split; [exact Hlm|]. split; [reflexivity|].
  rewrite length_app, <- (Forall2_length _ _ _ Hcm),
    <- (Forall2_length _ _ _ Hlm).
  destruct Hsc as [Hlen1 _], Hsl as [Hlen2 _]. lia.
Qed.

Lemma succeeds_generate_campaign_members campaigns leads contacts :
  Z.of_nat (length contacts)
  + Z.of_nat (length (filter (fun l => Lead.IsConverted l = false) leads))
    < FLOAT_INT_LIMIT ->
  Forall countable campaigns ->
  succeeds (generate_campaign_members campaigns leads contacts).
Proof.
  intros Hpool Hsent. rewrite Forall_forall in Hsent.
  unfold generate_campaign_members.
  succ_skip (succeeds_mapM (members_of_campaign contacts _)).
  { intros campaign Hin. apply succeeds_members_of_campaign; auto. }
  apply succeeds_ret.
Qed.

(** The members come in campaign order, one group per campaign. *)
Lemma post_generate_campaign_members_capped campaigns leads contacts :
  Z.of_nat (length contacts)
  + Z.of_nat (length (filter (fun l => Lead.IsConverted l = false) leads))
    < FLOAT_INT_LIMIT ->
  Forall countable campaigns ->
  post (generate_campaign_members campaigns leads contacts)
       (fun members => exists groups,
            members = concat groups /\
            Forall2 (members_capped contacts
                       (filter (fun l => Lead.IsConverted l = false) leads))
                    campaigns groups).
Proof.
  intros Hpool Hsent. rewrite Forall_forall in Hsent.
  unfold generate_campaign_members.
  post_use (post_mapM (members_of_campaign contacts _)
              (members_capped contacts
                 (filter (fun l => Lead.IsConverted l = false) leads))).
  { intros campaign Hin. apply post_members_capped; auto. }
  apply post_ret. now exists a.
Qed.

End SamplingFacts.

(** C8.  Take campaigns whose member counts can be derived ([NumberSent]
    not negative, and small enough to be converted to a [float] wherever the
    code multiplies it by one) and contact and lead lists of any length a
    [float] can hold, short or empty as they may be.  Then campaign member
    generation returns without raising.  The members it returns come in
    campaign order, one group per campaign, and for each campaign: when the
    member count derived for it exceeds the eligible pool (all contacts plus
    the unconverted leads), the count requested is the pool size, otherwise
    it is the derived count; the contacts and the unconverted leads sampled
    are distinct items of their lists, as many as the requested count asks
    of each list and the list holds; and the group has one member per person
    sampled, at most the requested count in all. *)
Theorem campaign_members_capped_by_pool {G : Type} `{RandomSource G}
    (campaigns : list Campaign.t) (leads : list Lead.t)
    (contacts : list Contact.t) (g : G) :
  Z.of_nat (length contacts)
  + Z.of_nat (length (filter (fun l => Lead.IsConverted l = false) leads))
    < FLOAT_INT_LIMIT ->
  Forall countable campaigns ->
  exists groups g',
    generate_campaign_members campaigns leads contacts g
      = Ok (concat groups, g') /\
    Forall2 (members_capped contacts
               (filter (fun l => Lead.IsConverted l = false) leads))
            campaigns groups.
Proof.
  intros Hpool Hsent.
  destruct (succeeds_generate_campaign_members campaigns leads contacts
              Hpool Hsent g) as (members & g' & Hrun).
  destruct (post_generate_campaign_members_capped campaigns leads contacts
              Hpool Hsent g members g' Hrun) as (groups & -> & Hgroups).
  now exists groups, g'.
Qed.

(** * Concrete runs of the campaign member and activity generators *)

Definition contact_at (account : Account.t) (id first_name : string)
  : Contact.t :=
  {| Contact.Id := id;
     Contact.AccountId := Account.Id account;
     Contact.FirstName := first_name;
     Contact.LastName := "Jones";
     Contact.Email := "jones@acme.example";
     Contact.Phone := "555-0100";
     Contact.Title := "CTO";
     Contact.Department := "IT";
     Contact.LeadSource := "Web";
     Contact.OwnerId := Account.OwnerId account;
     Contact.CreatedDate := Account.CreatedDate account |}.

Definition acme_contacts : list Contact.t :=
  [contact_at acme "003Contact00000001" "Ada";
   contact_at acme "003Contact00000002" "Bea"].

Definition open_lead : Lead.t :=
  {| Lead.Id := "00QLead00000000001";
     Lead.LastName := "Brown";
     Lead.FirstName := "Cy";
     Lead.Company := "Initech";
     Lead.Title := "CFO";
     Lead.Email := "cy.brown@initech.example";
     Lead.Phone := "555-0101";
     Lead.Status := "Open - Not Contacted";
     Lead.Rating := "Warm";
     Lead.LeadSource := "Web";
     Lead.Industry := "Retail";
     Lead.AnnualRevenue := 1000000;
     Lead.NumberOfEmployees := 10;
     Lead.Street := "2 Side Street";
     Lead.City := "Springfield";
     Lead.State := "IL";
     Lead.PostalCode := "62702";
     Lead.Country := "USA";
     Lead.Description := "Met at a trade show.";
     Lead.OwnerId := "005Owner0000000001";
     Lead.IsConverted := false;
     Lead.ConvertedAccountId := None;
     Lead.ConvertedContactId := None;
     Lead.ConvertedOpportunityId := None;
     Lead.ConvertedDate := None;
     Lead.CreatedDate := Calendar.ordinal 2023 5 1;
     Lead.LastModifiedDate := Calendar.ordinal 2023 5 2;
     Lead.IsDeleted := false |}.

(** A completed e-mail campaign sent to 1000 people: far more than the
    three people of the pool above. *)
Definition spring_mailing : Campaign.t :=
  {| Campaign.Id := "701Campaign0000001";
     Campaign.Name := "Email - Spring mailing";
     Campaign.Type_ := "Email";
     Campaign.Status := "Completed";
     Campaign.StartDate := Calendar.ordinal 2023 4 1;
     Campaign.EndDate := Calendar.ordinal 2023 5 1;
     Campaign.IsActive := false;
     Campaign.Description := "Spring mailing.";
     Campaign.BudgetedCost := 10000;
     Campaign.ActualCost := 9000;
     Campaign.ExpectedRevenue := 40000;
     Campaign.NumberSent := 1000;
     Campaign.ParentId := None;
     Campaign.OwnerId := "005Owner0000000001";
     Campaign.CreatedDate := Calendar.ordinal 2023 3 15;
     Campaign.LastModifiedDate := Calendar.ordinal 2023 3 20;
     Campaign.IsDeleted := false |}.

Lemma campaign_member_exactly_one_person_witness :
  exists members t',
    generate_campaign_members [spring_mailing] [open_lead] acme_contacts
                              ([] : Tape) = Ok (members, t') /\
    length members = 3%nat /\
    Forall exactly_one_person members.
Proof.
  destruct (generate_campaign_members [spring_mailing] [open_lead]
              acme_contacts ([] : Tape)) as [[members t']|e] eqn:Hrun;
    [|vm_compute in Hrun; discriminate].
  exists members, t'. split; [reflexivity|]. split.
  - vm_compute in Hrun. now inversion Hrun.
  - exact (campaign_member_exactly_one_person [spring_mailing] [open_lead]
             acme_contacts [] t' members Hrun).
Defined.

Lemma campaign_members_capped_by_pool_witness :
  Z.of_nat (length acme_contacts)
  + Z.of_nat (length (filter (fun l => Lead.IsConverted l = false)
                             [open_lead]))
    < FLOAT_INT_LIMIT /\
  Forall countable [spring_mailing] /\
  exists groups t',
    generate_campaign_members [spring_mailing] [open_lead] acme_contacts
                              ([] : Tape) = Ok (concat groups, t') /\
    Forall2 (members_capped acme_contacts
               (filter (fun l => Lead.IsConverted l = false) [open_lead]))
            [spring_mailing] groups /\
    length (concat groups) = 3%nat.
Proof.
  assert (Hpool : Z.of_nat (length acme_contacts)
                  + Z.of_nat (length (filter
                                        (fun l => Lead.IsConverted l = false)
                                        [open_lead]))
                  < FLOAT_INT_LIMIT)
    by (vm_compute; reflexivity).
  assert (Hsent : Forall countable [spring_mailing]).
  { constructor; [|constructor]. split; [vm_compute; discriminate|].
    right. split; reflexivity. }
  split; [exact Hpool|]. split; [exact Hsent|].
  destruct (campaign_members_capped_by_pool [spring_mailing] [open_lead]
              acme_contacts ([] : Tape) Hpool Hsent)
    as (groups & t' & Hrun & Hcap).
  exists groups, t'. split; [exact Hrun|]. split; [exact Hcap|].
  apply (f_equal (fun r => match r with
                           | Ok (members, _) => length members
                           | Raise _ => 0%nat
                           end)) in Hrun.
  cbv beta iota in Hrun. rewrite <- Hrun. vm_compute. reflexivity.
Defined.

(** The range of [NumberSent] matters: a webinar sent to more people than a
    [float] can count raises [OverflowError] when its member count is
    derived, before any sampling. *)
Definition oversized_webinar : Campaign.t :=
  {| Campaign.Id := "701Campaign0000002";
     Campaign.Name := "Webinar - Everyone";
     Campaign.Type_ := "Webinar";
     Campaign.Status := "Completed";
     Campaign.StartDate := Calendar.ordinal 2023 4 1;
     Campaign.EndDate := Calendar.ordinal 2023 5 1;
     Campaign.IsActive := false;
     Campaign.Description := "Webinar for everyone.";
     Campaign.BudgetedCost := 10000;
     Campaign.ActualCost := 9000;
     Campaign.ExpectedRevenue := 40000;
     Campaign.NumberSent := FLOAT_INT_LIMIT;
     Campaign.ParentId := None;
     Campaign.OwnerId := "005Owner0000000001";
     Campaign.CreatedDate := Calendar.ordinal 2023 3 15;
     Campaign.LastModifiedDate := Calendar.ordinal 2023 3 20;
     Campaign.IsDeleted := false |}.

Lemma oversized_webinar_raises :
  generate_campaign_members [oversized_webinar] [open_lead] acme_contacts
                            ([] : Tape) = Raise OverflowError.
Proof. vm_compute. reflexivity. Qed.

Lemma task_contact_in_task_account_witness :
  exists tasks t',
    generate_activities default_config [acme] acme_contacts [] [sole_rep]
                        ([] : Tape) = Ok (tasks, t') /\
    Forall (who_belongs_to_what acme_contacts) tasks.
Proof.
  destruct (generate_activities default_config [acme] acme_contacts []
              [sole_rep] ([] : Tape)) as [[tasks t']|e] eqn:Hrun;
    [|vm_compute in Hrun; discriminate].
  exists tasks, t'. split; [reflexivity|].
  exact (task_contact_in_task_account default_config [acme] acme_contacts []
           [sole_rep] [] t' tasks Hrun).
Defined.
